(** * kapprover: the inspector registry, the policy flag and the
      [always] approver

    A shallow embedding of [inspectors/inspectors.go] (the process-wide
    registry of inspectors and the [Inspectors] flag value with its
    [String] and [Set] methods) and of the [always] approver (the
    approve-and-retry loop of [Always.Approve]).

    Go strings are byte strings ([string]); the package-level map is a
    [gmap]; panics, errors and the calls made on collaborators are explicit
    in the results. *)

From Stdlib Require Import Ascii String List Bool.
From stdpp Require Import base option list gmap strings fin_maps.

Local Open Scope char_scope.
Local Open Scope stdpp_scope.

(** stdpp keeps [simpl] from unfolding the append of strings; the proofs
    below compute with it. *)
#[local] Arguments String.append !_ _ / : simpl nomatch.

(** ** The fragments of the Go runtime and standard library the code uses *)
Module Go.

(** A call either returns or panics. *)
Inductive outcome (A : Type) : Type :=
| Returned (a : A)
| Panicked (msg : string).
Arguments Returned {A} a.
Arguments Panicked {A} msg.

(** Sequencing stops at the first panic; [x ← m; k] is stdpp's notation. *)
#[global] Instance outcome_bind : MBind outcome := fun A B k m =>
  match m with
  | Returned a => k a
  | Panicked msg => Panicked msg
  end.

Definition panics {A} (m : outcome A) : Prop :=
  match m with Panicked _ => True | Returned _ => False end.

(** [s[i]] on a slice: out of range is a run-time panic. *)
Definition index {A} (s : list A) (i : nat) : outcome A :=
  match nth_error s i with
  | Some x => Returned x
  | None => Panicked "index out of range"
  end.

(** The [error] interface, observed through its [Error()] text;
    [errors_New] is [errors.New].  A nil error is [None]. *)
Record error : Type := errors_New { Error : string }.

(** *** Bytes *)

Definition isUpper (c : ascii) : bool := ("A" <=? c)%char && (c <=? "Z")%char.

(** [c + ('a' - 'A')] *)
Definition lowerByte (c : ascii) : ascii :=
  if isUpper c then ascii_of_nat (nat_of_ascii c + 32) else c.

(** [c < utf8.RuneSelf] *)
Definition isASCIIByte (c : ascii) : bool := (c <? "128")%char.

Fixpoint mapBytes (f : ascii -> ascii) (s : string) : string :=
  match s with
  | EmptyString => EmptyString
  | String c t => String (f c) (mapBytes f t)
  end.

Fixpoint allBytes (f : ascii -> bool) (s : string) : bool :=
  match s with
  | EmptyString => true
  | String c t => f c && allBytes f t
  end.

Fixpoint anyByte (f : ascii -> bool) (s : string) : bool :=
  match s with
  | EmptyString => false
  | String c t => f c || anyByte f t
  end.

Definition isASCII : string -> bool := allBytes isASCIIByte.

(** The string has a byte in ['A'..'Z']. *)
Definition hasUpper : string -> bool := anyByte isUpper.

Definition hexDigit (n : nat) : ascii :=
  nth n ["0"; "1"; "2"; "3"; "4"; "5"; "6"; "7";
         "8"; "9"; "a"; "b"; "c"; "d"; "e"; "f"]%char "0"%char.

(** What [strconv.Quote] writes for one byte below [utf8.RuneSelf]:
    the quote and the backslash are backslashed, printable bytes stand
    for themselves, the seven named escapes, [\x] and two hex digits for
    the other control bytes. *)
Definition quoteByte (c : ascii) : string :=
  let n := nat_of_ascii c in
  if (c =? "034")%char || (c =? "\")%char then String "\" (String c "")
  else if (32 <=? n)%nat && (n <? 127)%nat then String c ""
  else match n with
       | 7 => "\a" | 8 => "\b" | 12 => "\f" | 10 => "\n"
       | 13 => "\r" | 9 => "\t" | 11 => "\v"
       | _ => String "\" (String "x"
                (String (hexDigit (n / 16)) (String (hexDigit (n mod 16)) "")))
       end.

(** The bytes that [strconv.Quote] leaves as they are: printable, and
    neither the quote nor the backslash. *)
Definition plainByte (c : ascii) : bool :=
  isASCIIByte c && negb (Ascii.eqb c "034") && negb (Ascii.eqb c "\")
  && (32 <=? nat_of_ascii c)%nat && (nat_of_ascii c <? 127)%nat.

Fixpoint concatMap (f : ascii -> string) (s : string) : string :=
  match s with
  | EmptyString => EmptyString
  | String c t => f c +:+ concatMap f t
  end.

(** The string made of one double quote. *)
Definition doubleQuote : string := String "034" "".

(** The Unicode tables are not embedded: what the library does on a
    string with a byte at or above [utf8.RuneSelf] is a parameter. *)
Class Unicode : Type := {
  (** [strings.Map(unicode.ToLower, s)] *)
  mapToLower : string -> string;
  (** [strconv.Quote(s)] *)
  quoteRunes : string -> string
}.

Section WithUnicode.
Context `{Unicode}.

(** [strings.ToLower]: an all-ASCII string is lowered byte by byte,
    any other goes through [unicode.ToLower] rune by rune. *)
Definition ToLower (s : string) : string :=
  if isASCII s then mapBytes lowerByte s else mapToLower s.

(** What the verb [%q] prints for a string: [strconv.Quote]. *)
Definition Quote (s : string) : string :=
  if isASCII s then doubleQuote +:+ concatMap quoteByte s +:+ doubleQuote
  else quoteRunes s.

(** What is known of [unicode.ToLower] and assumed where stated: it
    yields no byte in ['A'..'Z']. *)
Definition lowers : Prop := forall s, hasUpper (mapToLower s) = false.

(** What is known of [strings.ToLower] and assumed where stated:
    lowering what [unicode.ToLower] gave changes nothing. *)
Definition settles : Prop := forall s, ToLower (mapToLower s) = mapToLower s.

End WithUnicode.

(** *** Package strings *)

(** The text before and after the first [sep], if there is one
    ([strings.Cut] for a one-byte separator). *)
Fixpoint cut (sep : ascii) (s : string) : option (string * string) :=
  match s with
  | EmptyString => None
  | String c t =>
      if (c =? sep)%char then Some (EmptyString, t)
      else match cut sep t with
           | Some (before, after) => Some (String c before, after)
           | None => None
           end
  end.

(** [strings.SplitN(s, sep, n)] for a one-byte separator and [n >= 0]:
    at most [n] pieces, the last one the unsplit remainder. *)
Fixpoint SplitN (s : string) (sep : ascii) (n : nat) : list string :=
  match n with
  | 0 => []
  | S n' =>
      match n', cut sep s with
      | S _, Some (before, after) => before :: SplitN after sep n'
      | _, _ => [s]
      end
  end.

(** [strings.Join(elems, sep)] *)
Fixpoint Join (elems : list string) (sep : string) : string :=
  match elems with
  | [] => ""
  | [e] => e
  | e :: rest => e +:+ sep +:+ Join rest sep
  end.

(** [strings.HasPrefix(s, prefix)] *)
Fixpoint HasPrefix (s prefix : string) : bool :=
  match prefix, s with
  | EmptyString, _ => true
  | String a p, String b t => (a =? b)%char && HasPrefix t p
  | String _ _, EmptyString => false
  end.

(** [strings.Contains(s, substr)] *)
Fixpoint Contains (s substr : string) : bool :=
  HasPrefix s substr
  || match s with
     | EmptyString => false
     | String _ t => Contains t substr
     end.

End Go.

(** ** Package inspectors *)
Module inspectors.
Import Go.

(** The interface [Inspector], for the dynamic values of type [T] that
    implement it.  [Configure] returns the pair [(inspector, err)].
    [Inspect] is not called by this package and is left out. *)
Class InspectorMethods (T : Type) : Type := {
  Configure : T -> string -> option T * option error
}.

Section WithInspector.
Context `{Unicode} {T : Type} `{InspectorMethods T}.

(** An interface value: [None] is the nil interface. *)
Definition Inspector : Type := option T.

Record NamedInspector : Type := {
  Name : string;
  Config : string;
  Inspector_ : Inspector
}.

(** A slice of named inspectors forming a policy. *)
Definition Inspectors : Type := list NamedInspector.

(** The package variable [inspectors], a [map[string]Inspector], is
    threaded through the functions that read or write it.  The mutex is
    not modelled: calls are sequential here. *)
Local Abbreviation registry := (gmap string Inspector).

(** The loop of [String]: [b] is the buffer, [idx] the range index. *)
Fixpoint String_range (idx : nat) (rest : Inspectors) (b : string) : string :=
  match rest with
  | [] => b
  | namedInspector :: rest' =>
      let b := if (0 <? idx)%nat then b +:+ "," else b in
      let b := b +:+ Name namedInspector in
      let b := if negb (String.eqb (Config namedInspector) "")
               then (b +:+ "=") +:+ Config namedInspector
               else b in
      String_range (S idx) rest' b
  end.

Definition Inspectors_String (inspectors : Inspectors) : string :=
  String_range 0 inspectors "".

(** [Get]: the registered inspector and whether there is one. *)
Definition Get (name : string) (reg : registry) : Inspector * bool :=
  match reg !! name with
  | Some a => (a, true)
  | None => (None, false)
  end.

(** [List]: the registered names.  Go ranges over the map in an
    unspecified order; here the order is the one of [map_to_list], and
    nothing below depends on it. *)
Definition List (reg : registry) : list string := (map_to_list reg).*1.

Definition Unregister (name : string) (reg : registry) : registry :=
  delete name reg.

Definition Register (name : string) (a : Inspector) (reg : registry)
  : outcome registry :=
  if String.eqb name "" then
    Panicked "inspectors: could not register an Inspector with an empty name"
  else
    match a with
    | None => Panicked "inspectors: could not register a nil Inspector"
    | Some _ =>
        let name := ToLower name in
        match reg !! name with
        | Some _ =>
            Panicked ("inspectors: RegisterApprover called twice for " +:+ name)
        | None => Returned (<[name := a]> reg)
        end
    end.

(** What a call of [Set] leaves behind: the slice behind the receiver,
    the returned error, and the calls of [Configure] it made (receiver
    and argument). *)
Record SetResult : Type := {
  inspectors' : Inspectors;
  err : option error;
  configured : list (T * string)
}.

(** The text of the error for a name that is not registered. *)
Definition notFound (name : string) (reg : registry) : string :=
  "Could not find inspector " +:+ Quote name
    +:+ ", registered approvers: " +:+ Join (List reg) ",".

Definition Inspectors_Set (inspectors : Inspectors) (value : string)
    (reg : registry) : outcome SetResult :=
  let split := SplitN value "=" 2 in
  name ← index split 0;
  let '(inspector, exists_) := Get name reg in
  if negb exists_ then
    Returned {| inspectors' := inspectors;
                err := Some (errors_New (notFound name reg));
                configured := [] |}
  else
    config ← (if (1 <? length split)%nat then index split 1 else Returned "");
    if negb (String.eqb config "") then
      arg ← index split 1;
      match inspector with
      | None => Panicked "invalid memory address or nil pointer dereference"
      | Some receiver =>
          let '(inspector, err) := Configure receiver arg in
          match err with
          | Some e =>
              Returned {| inspectors' := inspectors;
                          err := Some e;
                          configured := [(receiver, arg)] |}
          | None =>
              Returned {| inspectors' :=
                            inspectors ++ [{| Name := name; Config := config;
                                              Inspector_ := inspector |}];
                          err := None;
                          configured := [(receiver, arg)] |}
          end
      end
    else
      Returned {| inspectors' :=
                    inspectors ++ [{| Name := name; Config := config;
                                      Inspector_ := inspector |}];
                  err := None;
                  configured := [] |}.

(** The rendering as the specification words it: per entry the name, or
    the name, [=] and the configuration when there is one, joined by
    commas. *)
Definition renderEntry (e : NamedInspector) : string :=
  if String.eqb (Config e) "" then Name e
  else Name e +:+ "=" +:+ Config e.

Definition render (inspectors : Inspectors) : string :=
  Join (map renderEntry inspectors) ",".

(** An entry is what the registry gives for its name and configuration. *)
Definition resolves (reg : registry) (e : NamedInspector) : Prop :=
  anyByte (Ascii.eqb "=") (Name e) = false /\
  exists registered : Inspector,
    reg !! Name e = Some registered /\
    ((Config e = "" /\ Inspector_ e = registered) \/
     (Config e <> "" /\
      exists receiver : T,
        registered = Some receiver /\
        Configure receiver (Config e) = (Inspector_ e, None))).

(** The registries that calls of [Register] and [Unregister] produce from
    the empty map the package starts with. *)
Inductive reachable : registry -> Prop :=
| reachable_init : reachable ∅
| reachable_Register reg name a reg' :
    reachable reg -> Register name a reg = Returned reg' -> reachable reg'
| reachable_Unregister reg name :
    reachable reg -> reachable (Unregister name reg).

(** The policies that successful calls of [Set] produce from the empty
    slice, the registry staying the same. *)
Inductive built (reg : registry) : Inspectors -> Prop :=
| built_nil : built reg []
| built_Set inspectors value r :
    built reg inspectors ->
    Inspectors_Set inspectors value reg = Returned r ->
    err r = None ->
    built reg (inspectors' r).

End WithInspector.
End inspectors.

(** ** The API objects the approver reads and writes *)

(** [k8s.io/apimachinery/pkg/apis/meta/v1] *)
Module v1.
Record ObjectMeta : Type := { Name : string }.
End v1.

(** [k8s.io/client-go/pkg/apis/certificates/v1beta1], with the fields
    the approver touches. *)
Module certificates.

Definition RequestConditionType : Type := string.
Definition CertificateApproved : RequestConditionType := "Approved".
Definition CertificateDenied : RequestConditionType := "Denied".

Record CertificateSigningRequestCondition : Type := {
  Type_ : RequestConditionType;
  Reason : string;
  Message : string
}.

Record CertificateSigningRequestSpec : Type := {
  Username : string;
  Groups : list string
}.

Record CertificateSigningRequestStatus : Type := {
  Conditions : list CertificateSigningRequestCondition
}.

Record CertificateSigningRequest : Type := {
  ObjectMeta : v1.ObjectMeta;
  Spec : CertificateSigningRequestSpec;
  Status : CertificateSigningRequestStatus
}.

End certificates.

(** ** Package always *)
Module always.
Import Go certificates.

Definition kubeletBootstrapUsername : string := "kubelet-bootstrap".
Definition kubeletBootstrapGroup : string := "system:kubelet-bootstrap".

(** [*certificates.CertificateSigningRequest]: the objects live in a heap
    and a request is a pointer into it; [None] is the nil pointer. *)
Definition loc : Type := positive.
Definition ptr : Type := option loc.
Local Abbreviation heap := (gmap loc CertificateSigningRequest).

(** The calls made on the client, with what was passed: the object behind
    the pointer for [UpdateApproval], the name for [Get]. *)
Inductive call : Type :=
| UpdateApprovalCall (request : CertificateSigningRequest)
| GetCall (name : string).

(** [v1beta1.CertificateSigningRequestInterface], the two methods that
    are called.  The store behind the client changes under the calls and
    under third parties, so a client is a state [C] and each call yields
    the next state with its result.  [UpdateApproval] reads the object it
    is given and does not write to it; its first result is dropped by the
    caller and left out.  [Get] yields [(object, err)], the object being
    freshly allocated by the client ([None]: a nil pointer). *)
Class CertificateSigningRequestInterface (C : Type) : Type := {
  UpdateApproval : C -> CertificateSigningRequest -> C * option error;
  Get : C -> string -> C * (option CertificateSigningRequest * option error)
}.

Section WithClient.
Context {C : Type} `{CertificateSigningRequestInterface C}.

(** Where a call of [Approve] ends: what it returned or that it
    panicked, the heap, the client, and the calls made in order. *)
Record run : Type := {
  result : outcome (option error);
  objects : heap;
  store : C;
  calls : list call
}.

Definition condition : CertificateSigningRequestCondition :=
  {| Type_ := CertificateApproved;
     Reason := "AutoApproved";
     Message := "Auto approving of all kubelet CSRs is enabled on bootkube" |}.

(** The inner [for ... range request.Spec.Groups] with its [break]. *)
Fixpoint isKubeletBootstrapGroup (groups : list string) : bool :=
  match groups with
  | [] => false
  | group :: rest =>
      if String.eqb group kubeletBootstrapGroup then true
      else isKubeletBootstrapGroup rest
  end.

(** [request.Status.Conditions = append(request.Status.Conditions, condition)] *)
Definition appendCondition (r : CertificateSigningRequest)
  : CertificateSigningRequest :=
  {| ObjectMeta := ObjectMeta r;
     Spec := Spec r;
     Status := {| Conditions := Conditions (Status r) ++ [condition] |} |}.

(** The object a client hands back is a new one in the heap. *)
Definition new (h : heap) (o : option CertificateSigningRequest) : heap * ptr :=
  match o with
  | None => (h, None)
  | Some r => let l := fresh (dom h) in (<[l := r]> h, Some l)
  end.

Definition nilDereference : string :=
  "invalid memory address or nil pointer dereference".

(** The [for] loop of [Approve].  It has no bound in the source; [fuel]
    bounds the number of iterations here and [None] means the bound was
    reached.  Reading through a nil pointer, or one that points at no
    object, panics. *)
Fixpoint Approve_for (fuel : nat) (client : C) (h : heap) (request : ptr)
    (log : list call) : option run :=
  match fuel with
  | 0 => None
  | S fuel =>
      match request with
      | None =>
          Some {| result := Panicked nilDereference;
                  objects := h; store := client; calls := log |}
      | Some l =>
      match h !! l with
      | None =>
          Some {| result := Panicked nilDereference;
                  objects := h; store := client; calls := log |}
      | Some r =>
          if (0 <? length (Conditions (Status r)))%nat then
            Some {| result := Returned None;
                    objects := h; store := client; calls := log |}
          else if negb (String.eqb (Username (Spec r)) kubeletBootstrapUsername) then
            Some {| result := Returned None;
                    objects := h; store := client; calls := log |}
          else if negb (isKubeletBootstrapGroup (Groups (Spec r))) then
            Some {| result := Returned None;
                    objects := h; store := client; calls := log |}
          else
            let r := appendCondition r in
            let h := <[l := r]> h in
            let '(client, err) := UpdateApproval client r in
            let log := log ++ [UpdateApprovalCall r] in
            match err with
            | Some e =>
                if Contains (Error e) "the object has been modified" then
                  let '(client, (fetched, err)) :=
                    Get client (v1.Name (ObjectMeta r)) in
                  let log := log ++ [GetCall (v1.Name (ObjectMeta r))] in
                  let '(h, request) := new h fetched in
                  match err with
                  | Some e' =>
                      Some {| result := Returned (Some e');
                              objects := h; store := client; calls := log |}
                  | None => Approve_for fuel client h request log
                  end
                else
                  Some {| result := Returned (Some e);
                          objects := h; store := client; calls := log |}
            | None =>
                Some {| result := Returned None;
                        objects := h; store := client; calls := log |}
            end
      end
      end
  end.

Definition Approve (fuel : nat) (client : C) (h : heap) (request : ptr)
  : option run :=
  Approve_for fuel client h request [].

(** The three checks at the top of the loop let the request through. *)
Definition submittedByBootstrap (r : CertificateSigningRequest) : Prop :=
  Conditions (Status r) = [] /\
  Username (Spec r) = kubeletBootstrapUsername /\
  isKubeletBootstrapGroup (Groups (Spec r)) = true.

(** A call that submits nothing but the approval. *)
Definition approvesOnly (c : call) : Prop :=
  match c with
  | UpdateApprovalCall r => Conditions (Status r) = [condition]
  | GetCall _ => True
  end.

End WithClient.
End always.

(** ** Instances to run the definitions on *)
Module samples.
Import Go certificates.

(** Byte-wise lowering and no quoting beyond ASCII. *)
Definition bytewise : Unicode :=
  {| mapToLower := mapBytes lowerByte; quoteRunes := fun s => s |}.

(** An inspector that records its kind and the configuration it was
    given, and rejects the configuration [bad]. *)
Inductive sample : Type := Sample (kind config : string).

Definition sampleMethods : inspectors.InspectorMethods sample :=
  {| inspectors.Configure := fun '(Sample kind _) config =>
       if String.eqb config "bad"
       then (None, Some (errors_New "bad configuration"))
       else (Some (Sample kind config), None) |}.

Definition registryOf (names : list string) : gmap string (option sample) :=
  list_to_map (map (fun n => (n, Some (Sample n ""))) names).

(** A scripted client: each call takes the next scripted answer; with
    none left, updates succeed and fetches fail. *)
Record script : Type := {
  updates : list (option error);
  fetches : list (option CertificateSigningRequest * option error)
}.

Definition scripted : always.CertificateSigningRequestInterface script :=
  {| always.UpdateApproval := fun s _ =>
       match updates s with
       | [] => (s, None)
       | e :: rest => ({| updates := rest; fetches := fetches s |}, e)
       end;
     always.Get := fun s _ =>
       match fetches s with
       | [] => (s, (None, Some (errors_New "not found")))
       | a :: rest => ({| updates := updates s; fetches := rest |}, a)
       end |}.

(** An error of the store that tells a conflict. *)
Definition conflict : error :=
  errors_New
    "Operation cannot be fulfilled: the object has been modified; please apply your changes to the latest version and try again".

Definition request (name username : string) (groups : list string)
    (conditions : list CertificateSigningRequestCondition)
  : CertificateSigningRequest :=
  {| ObjectMeta := {| v1.Name := name |};
     Spec := {| Username := username; Groups := groups |};
     Status := {| Conditions := conditions |} |}.

Definition bootstrap (name : string) : CertificateSigningRequest :=
  request name "kubelet-bootstrap" ["system:nodes"; "system:kubelet-bootstrap"] [].

(** The heap of a caller that holds one request. *)
Definition only (r : CertificateSigningRequest)
  : gmap always.loc CertificateSigningRequest :=
  {[ 1%positive := r ]}.

(** An error of the store that tells no conflict. *)
Definition unavailable : error :=
  errors_New "the server is currently unable to handle the request".

(** The decision of someone else. *)
Definition denied : CertificateSigningRequestCondition :=
  {| Type_ := CertificateDenied;
     Reason := "Policy";
     Message := "denied by policy" |}.

End samples.

(** ** The shape of the call logs of the approver *)
Module logs.
Import certificates always.

(** The logs made of updates with, between two of them, the fetch of the
    object just submitted, by its name. *)
Inductive protocol : list call -> Prop :=
| protocol_nil : protocol []
| protocol_update r : protocol [UpdateApprovalCall r]
| protocol_retry r rest :
    protocol rest ->
    protocol (UpdateApprovalCall r
                :: GetCall (v1.Name (ObjectMeta r)) :: rest).

Definition isUpdate (c : call) : bool :=
  match c with UpdateApprovalCall _ => true | GetCall _ => false end.

Definition isGet (c : call) : bool :=
  match c with UpdateApprovalCall _ => false | GetCall _ => true end.

End logs.

(** ** More clients to run the approver on *)
Module doubles.
Import Go certificates.

(** A store under endless contention: every update conflicts and every
    fetch hands back a bootstrap request of the name asked for. *)
Definition contended : always.CertificateSigningRequestInterface unit :=
  {| always.UpdateApproval := fun s _ => (s, Some samples.conflict);
     always.Get := fun s name => (s, (Some (samples.bootstrap name), None)) |}.

(** A store that is down: every update fails with an error that tells
    no conflict, and so does every fetch. *)
Definition down : always.CertificateSigningRequestInterface unit :=
  {| always.UpdateApproval := fun s _ => (s, Some samples.unavailable);
     always.Get := fun s _ => (s, (None, Some samples.unavailable)) |}.

(** A store where someone else was first: every update conflicts and
    every fetch hands back the request of the name asked for, denied. *)
Definition overtaken : always.CertificateSigningRequestInterface unit :=
  {| always.UpdateApproval := fun s _ => (s, Some samples.conflict);
     always.Get := fun s name =>
       (s, (Some (samples.request name "kubelet-bootstrap"
                    ["system:kubelet-bootstrap"] [samples.denied]),
            None)) |}.

(** The scripted store that conflicts [n] times, handing back each time
    the bootstrap request [name], and then accepts the update. *)
Definition conflicts (n : nat) (name : string) : samples.script :=
  {| samples.updates := replicate n (Some samples.conflict);
     samples.fetches := replicate n (Some (samples.bootstrap name), None) |}.

(** The calls of [n] rounds of update and fetch of [r]. *)
Fixpoint rounds (n : nat) (r : CertificateSigningRequest) : list always.call :=
  match n with
  | 0 => []
  | S n' =>
      always.UpdateApprovalCall r
        :: always.GetCall (v1.Name (ObjectMeta r)) :: rounds n' r
  end.

End doubles.

(** ** Names beyond ASCII *)
Module capitals.

(** The letter U+2102, DOUBLE-STRUCK CAPITAL C, in UTF-8: an uppercase
    letter that has no lowercase form. *)
Definition doubleStruckC : string :=
  String "226" (String "132" (String "130" "")).

End capitals.

(** * Facts about the library fragments *)
Module GoFacts.
Import Go.

Lemma append_nil_r (s : string) : s +:+ "" = s.
Proof. induction s as [|c s IH]; simpl; [reflexivity | now rewrite IH]. Qed.

Lemma append_assoc (s t u : string) : (s +:+ t) +:+ u = s +:+ (t +:+ u).
Proof. induction s as [|c s IH]; simpl; [reflexivity | now rewrite IH]. Qed.

(** [cut] finds nothing exactly in the strings without the separator. *)
Lemma cut_absent sep s :
  anyByte (Ascii.eqb sep) s = false -> cut sep s = None.
Proof.
  induction s as [|c s IH]; simpl; [reflexivity |].
  intros Hno. apply orb_false_iff in Hno as [Hc Hs].
  rewrite Ascii.eqb_sym, Hc. now rewrite IH.
Qed.

(** [cut] splits at the first separator: nothing of what follows it is
    looked at. *)
Lemma cut_first sep before after :
  anyByte (Ascii.eqb sep) before = false ->
  cut sep (before +:+ String sep after) = Some (before, after).
Proof.
  induction before as [|c s IH]; simpl.
  - intros _. now rewrite Ascii.eqb_refl.
  - intros Hno. apply orb_false_iff in Hno as [Hc Hs].
    rewrite Ascii.eqb_sym, Hc. now rewrite IH.
Qed.

Lemma cut_Some sep s before after :
  cut sep s = Some (before, after) ->
  s = before +:+ String sep after /\ anyByte (Ascii.eqb sep) before = false.
Proof.
  revert before. induction s as [|c s IH]; simpl; intros before; [discriminate |].
  destruct (Ascii.eqb_spec c sep) as [-> | Hne].
  - intros [= <- <-]. now split.
  - destruct (cut sep s) as [[b a]|] eqn:E; [|discriminate].
    intros [= <- <-]. destruct (IH b eq_refl) as [-> Hb]. split; [reflexivity |].
    simpl. rewrite Hb, orb_false_r. apply Ascii.eqb_neq. congruence.
Qed.

Lemma cut_None sep s :
  cut sep s = None -> anyByte (Ascii.eqb sep) s = false.
Proof.
  induction s as [|c s IH]; simpl; [reflexivity |].
  destruct (Ascii.eqb_spec c sep) as [-> | Hne]; [discriminate |].
  destruct (cut sep s) as [[b a]|]; [discriminate |].
  intros _. rewrite IH by reflexivity. rewrite orb_false_r.
  apply Ascii.eqb_neq. congruence.
Qed.

(** [SplitN(s, sep, 2)] has one piece or two. *)
Lemma SplitN_2 s sep :
  SplitN s sep 2 =
    match cut sep s with
    | Some (before, after) => [before; after]
    | None => [s]
    end.
Proof. simpl. destruct (cut sep s) as [[b a]|]; reflexivity. Qed.

Lemma lowerByte_lower c : isUpper (lowerByte c) = false.
Proof. destruct c as [[] [] [] [] [] [] [] []]; vm_compute; reflexivity. Qed.

Lemma mapBytes_lower s : hasUpper (mapBytes lowerByte s) = false.
Proof.
  induction s as [|c s IH]; simpl; [reflexivity |].
  unfold hasUpper in *. simpl. now rewrite lowerByte_lower, IH.
Qed.

Lemma quoteByte_plain c : plainByte c = true -> quoteByte c = String c "".
Proof. destruct c as [[] [] [] [] [] [] [] []]; vm_compute; congruence. Qed.

Lemma concatMap_plain s :
  allBytes plainByte s = true -> concatMap quoteByte s = s.
Proof.
  induction s as [|c s IH]; simpl; [reflexivity |].
  intros Hp. apply andb_true_iff in Hp as [Hc Hs].
  now rewrite quoteByte_plain, IH.
Qed.

Lemma plain_isASCII s : allBytes plainByte s = true -> isASCII s = true.
Proof.
  unfold isASCII. induction s as [|c s IH]; simpl; [reflexivity |].
  intros Hp. apply andb_true_iff in Hp as [Hc Hs]. rewrite IH by assumption.
  unfold plainByte in Hc. now destruct (isASCIIByte c).
Qed.

Lemma HasPrefix_append s t : HasPrefix (s +:+ t) s = true.
Proof.
  induction s as [|c s IH]; simpl; [now destruct t |].
  now rewrite Ascii.eqb_refl, IH.
Qed.

Lemma Contains_prefix s x : HasPrefix s x = true -> Contains s x = true.
Proof. intros Hp. destruct s; simpl in *; now rewrite Hp. Qed.

(** A string contains what any of its suffixes contains. *)
Lemma Contains_suffix u t x :
  Contains t x = true -> Contains (u +:+ t) x = true.
Proof.
  intros Ht. induction u as [|c u IH]; simpl; [exact Ht |].
  rewrite IH. apply orb_true_r.
Qed.

Lemma Contains_middle u x v : Contains (u +:+ x +:+ v) x = true.
Proof. apply Contains_suffix, Contains_prefix, HasPrefix_append. Qed.

Lemma Contains_Join (l : list string) sep k :
  k ∈ l -> Contains (Join l sep) k = true.
Proof.
  induction l as [|e rest IH]; [intros Hin; inversion Hin |].
  intros Hin. apply elem_of_cons in Hin as [-> | Hin].
  - destruct rest; simpl Join.
    + rewrite <- (append_nil_r e) at 1.
      apply Contains_prefix, HasPrefix_append.
    + apply Contains_prefix, HasPrefix_append.
  - destruct rest as [|e' rest]; [inversion Hin |].
    change (Join (e :: e' :: rest) sep)
      with (e +:+ sep +:+ Join (e' :: rest) sep).
    now apply Contains_suffix, Contains_suffix, IH.
Qed.

Section WithUnicode.
Context `{Unicode}.

(** A name of plain bytes is printed by [%q] between two double quotes,
    unchanged. *)
Lemma Quote_plain s :
  allBytes plainByte s = true ->
  Quote s = doubleQuote +:+ s +:+ doubleQuote.
Proof.
  intros Hp. unfold Quote. now rewrite plain_isASCII, concatMap_plain.
Qed.

Lemma ToLower_lower s : lowers -> hasUpper (ToLower s) = false.
Proof.
  intros Hl. unfold ToLower. destruct (isASCII s); [apply mapBytes_lower | apply Hl].
Qed.

Lemma lowerByte_twice c : lowerByte (lowerByte c) = lowerByte c.
Proof. destruct c as [[] [] [] [] [] [] [] []]; vm_compute; reflexivity. Qed.

Lemma lowerByte_ASCII c : isASCIIByte (lowerByte c) = isASCIIByte c.
Proof. destruct c as [[] [] [] [] [] [] [] []]; vm_compute; reflexivity. Qed.

Lemma mapBytes_twice s :
  mapBytes lowerByte (mapBytes lowerByte s) = mapBytes lowerByte s.
Proof.
  induction s as [|c s IH]; simpl; [reflexivity |].
  now rewrite lowerByte_twice, IH.
Qed.

Lemma mapBytes_ASCII s : isASCII (mapBytes lowerByte s) = isASCII s.
Proof.
  unfold isASCII. induction s as [|c s IH]; simpl; [reflexivity |].
  now rewrite lowerByte_ASCII, IH.
Qed.

(** Lowering twice is lowering once. *)
Lemma ToLower_twice s : settles -> ToLower (ToLower s) = ToLower s.
Proof.
  intros Hs. unfold ToLower at 2 3. destruct (isASCII s) eqn:Hascii.
  - unfold ToLower. now rewrite mapBytes_ASCII, Hascii, mapBytes_twice.
  - apply Hs.
Qed.

(** An all-ASCII string with a byte in ['A'..'Z'] is changed. *)
Lemma ToLower_changes_ASCII s :
  isASCII s = true -> hasUpper s = true -> ToLower s <> s.
Proof.
  intros Hascii Hup Heq. unfold ToLower in Heq. rewrite Hascii in Heq.
  pose proof (mapBytes_lower s) as Hlow. rewrite Heq in Hlow. congruence.
Qed.

Lemma ToLower_changes s : lowers -> hasUpper s = true -> ToLower s <> s.
Proof.
  intros Hl Hup Heq. pose proof (ToLower_lower s Hl) as Hlow.
  rewrite Heq in Hlow. congruence.
Qed.

End WithUnicode.
End GoFacts.

(** * The registry and the policy flag *)
Module inspectorsFacts.
Import Go GoFacts inspectors.

Section WithInspector.
Context `{Unicode} {T : Type} `{InspectorMethods T}.

Local Abbreviation registry := (gmap string (@Inspector T)).
Local Abbreviation Inspectors := (@Inspectors T).

(** What [Set] does, by the first [=] of its argument. *)
Lemma Set_by_cut (inspectors : Inspectors) (value : string) (reg : registry) :
  Inspectors_Set inspectors value reg =
    let '(name, config) :=
      match cut "=" value with
      | Some (before, after) => (before, after)
      | None => (value, "")
      end in
    match reg !! name with
    | None =>
        Returned {| inspectors' := inspectors;
                    err := Some (errors_New (notFound name reg));
                    configured := [] |}
    | Some inspector =>
        if String.eqb config "" then
          Returned {| inspectors' :=
                        inspectors ++ [{| Name := name; Config := config;
                                          Inspector_ := inspector |}];
                      err := None; configured := [] |}
        else
          match inspector with
          | None => Panicked "invalid memory address or nil pointer dereference"
          | Some receiver =>
              match Configure receiver config with
              | (_, Some e) =>
                  Returned {| inspectors' := inspectors; err := Some e;
                              configured := [(receiver, config)] |}
              | (configured_, None) =>
                  Returned {| inspectors' :=
                                inspectors ++ [{| Name := name; Config := config;
                                                  Inspector_ := configured_ |}];
                              err := None;
                              configured := [(receiver, config)] |}
              end
          end
    end.
Proof.
  unfold Inspectors_Set. rewrite SplitN_2.
  destruct (cut "=" value) as [[before after]|]; cbn -[String.eqb];
    unfold Get.
  - destruct (reg !! before) as [inspector|]; cbn -[String.eqb]; [|reflexivity].
    destruct (String.eqb after ""); cbn; [reflexivity |].
    destruct inspector as [receiver|]; [|reflexivity].
    destruct (Configure receiver after) as [configured_ [e|]]; reflexivity.
  - destruct (reg !! value) as [inspector|]; reflexivity.
Qed.

(** The name [Set] looks up is the first piece of the split. *)
Lemma SplitN_name value name rest :
  SplitN value "=" 2 = name :: rest ->
  match cut "=" value with
  | Some (before, _) => before
  | None => value
  end = name.
Proof.
  rewrite SplitN_2. destruct (cut "=" value) as [[before after]|]; congruence.
Qed.

Lemma Set_not_found (inspectors : Inspectors) value (reg : registry) name rest :
  SplitN value "=" 2 = name :: rest ->
  reg !! name = None ->
  Inspectors_Set inspectors value reg =
    Returned {| inspectors' := inspectors;
                err := Some (errors_New (notFound name reg));
                configured := [] |}.
Proof.
  intros Hsplit Hnone. apply SplitN_name in Hsplit. rewrite Set_by_cut.
  destruct (cut "=" value) as [[before after]|]; subst name;
    cbn -[String.eqb]; now rewrite Hnone.
Qed.

(** A call that returns an error leaves the slice as it was; one that
    returns none appends one entry at the end. *)
Lemma Set_outcome (inspectors : Inspectors) value (reg : registry) r :
  Inspectors_Set inspectors value reg = Returned r ->
  match err r with
  | Some _ => inspectors' r = inspectors
  | None => exists e, inspectors' r = inspectors ++ [e] /\ resolves reg e
  end.
Proof.
  rewrite Set_by_cut.
  destruct (cut "=" value) as [[name config]|] eqn:Hcut.
  - apply cut_Some in Hcut as [_ Hname].
    destruct (reg !! name) as [inspector|] eqn:Hreg; [|now intros [= <-]].
    destruct (String.eqb_spec config "") as [-> | Hconfig].
    + intros [= <-]. cbn. eexists; split; [reflexivity |].
      split; [exact Hname |]. exists inspector. cbn. auto.
    + destruct inspector as [receiver|]; [|discriminate].
      destruct (Configure receiver config) as [configured_ [e|]] eqn:Hconf;
        intros [= <-]; cbn; [reflexivity |].
      eexists; split; [reflexivity |]. split; [exact Hname |].
      exists (Some receiver). cbn. split; [exact Hreg |]. right. eauto.
  - apply cut_None in Hcut.
    destruct (reg !! value) as [inspector|] eqn:Hreg; [|now intros [= <-]].
    cbn. intros [= <-]. cbn. eexists; split; [reflexivity |].
    split; [exact Hcut |]. exists inspector. cbn. auto.
Qed.

(** [List] enumerates the registered names, each once. *)
Lemma List_registered (reg : registry) :
  NoDup (List reg) /\ forall k, k ∈ List reg <-> is_Some (reg !! k).
Proof.
  split; [apply NoDup_fst_map_to_list |].
  intros k. unfold List. rewrite list_elem_of_fmap. split.
  - intros [[k' a] [-> Hin]]. apply elem_of_map_to_list in Hin. now exists a.
  - intros [a Ha]. exists (k, a). split; [reflexivity |].
    now apply elem_of_map_to_list.
Qed.

(** C9: a token is split at its first [=] only: the name is the text
    before it, the configuration all that follows it (further [=]
    included), and the configuration is empty for a token without [=].
    [Configure] is called exactly when the configuration is not empty, on
    the registered inspector and with the configuration as it stands. *)
Theorem Set_splits_at_first_equals (inspectors : Inspectors) (reg : registry)
    (name config : string) (receiver : T) :
  anyByte (Ascii.eqb "=") name = false ->
  reg !! name = Some (Some receiver) ->
  SplitN name "=" 2 = [name] /\
  SplitN (name +:+ "=" +:+ config) "=" 2 = [name; config] /\
  Inspectors_Set inspectors name reg =
    Returned {| inspectors' :=
                  inspectors ++ [{| Name := name; Config := "";
                                    Inspector_ := Some receiver |}];
                err := None; configured := [] |} /\
  Inspectors_Set inspectors (name +:+ "=" +:+ config) reg =
    if String.eqb config "" then
      Returned {| inspectors' :=
                    inspectors ++ [{| Name := name; Config := "";
                                      Inspector_ := Some receiver |}];
                  err := None; configured := [] |}
    else
      match Configure receiver config with
      | (_, Some e) =>
          Returned {| inspectors' := inspectors; err := Some e;
                      configured := [(receiver, config)] |}
      | (configured_, None) =>
          Returned {| inspectors' :=
                        inspectors ++ [{| Name := name; Config := config;
                                          Inspector_ := configured_ |}];
                      err := None; configured := [(receiver, config)] |}
      end.
Proof.
  intros Hname Hreg.
  pose proof (cut_absent "=" name Hname) as Hcut1.
  pose proof (cut_first "=" name config Hname) as Hcut2.
  change (String "=" config) with ("=" +:+ config) in Hcut2.
  repeat split.
  - now rewrite SplitN_2, Hcut1.
  - now rewrite SplitN_2, Hcut2.
  - rewrite Set_by_cut, Hcut1. unfold Inspector in *. now rewrite Hreg.
  - rewrite Set_by_cut, Hcut2. unfold Inspector in *. rewrite Hreg.
    destruct (String.eqb_spec config "") as [-> | _]; reflexivity.
Qed.

(** C8: when the name of the token is not registered, [Set] returns an
    error whose text holds the name as [%q] prints it (the name itself
    when it is made of plain bytes) and every registered name, the
    names being listed after the colon and joined by commas; when the
    name is registered and [Configure] returns an error for the
    configuration of the token, [Set] returns that error; and whenever
    [Set] returns an error, for an unknown name or from [Configure], the
    slice is as it was before the call: no entry is appended. *)
Theorem Set_error_keeps_slice (inspectors : Inspectors) (value : string)
    (reg : registry) :
  (forall name rest,
     SplitN value "=" 2 = name :: rest ->
     reg !! name = None ->
     exists msg,
       Inspectors_Set inspectors value reg =
         Returned {| inspectors' := inspectors;
                     err := Some (errors_New msg);
                     configured := [] |} /\
       msg = "Could not find inspector " +:+ Quote name
               +:+ ", registered approvers: " +:+ Join (List reg) "," /\
       Contains msg (Quote name) = true /\
       (allBytes plainByte name = true -> Contains msg name = true) /\
       (forall k, is_Some (reg !! k) -> k ∈ List reg /\ Contains msg k = true)) /\
  (forall k, k ∈ List reg -> is_Some (reg !! k)) /\
  (forall r e,
     Inspectors_Set inspectors value reg = Returned r ->
     err r = Some e ->
     inspectors' r = inspectors) /\
  (forall name config receiver configured_ e,
     SplitN value "=" 2 = [name; config] ->
     config <> "" ->
     reg !! name = Some (Some receiver) ->
     Configure receiver config = (configured_, Some e) ->
     Inspectors_Set inspectors value reg =
       Returned {| inspectors' := inspectors;
                   err := Some e;
                   configured := [(receiver, config)] |}).
Proof.
  split; [|split; [|split]]; cycle 3.
  { intros name config receiver configured_ e Hsplit Hconfig Hreg Hconf.
    rewrite SplitN_2 in Hsplit. rewrite Set_by_cut.
    destruct (cut "=" value) as [[before after]|]; [|discriminate].
    injection Hsplit as -> ->. unfold Inspector in *. rewrite Hreg.
    destruct (String.eqb_spec config "") as [-> | _]; [contradiction |].
    now rewrite Hconf. }
  - intros name rest Hsplit Hnone. eexists. split; [|split; [reflexivity |]].
    { now apply (Set_not_found _ _ _ name rest). }
    split; [apply Contains_middle |]. split.
    + intros Hplain. rewrite (Quote_plain name Hplain).
      apply Contains_suffix. rewrite !append_assoc. apply Contains_middle.
    + intros k Hk. apply List_registered in Hk. split; [exact Hk |].
      now apply Contains_suffix, Contains_suffix, Contains_suffix, Contains_Join.
  - intros k Hk. now apply List_registered.
  - intros r e Hret He. apply Set_outcome in Hret. now rewrite He in Hret.
Qed.

(** C7: [Register] panics exactly when the name is empty, the inspector
    is nil, or the lowered name has an entry already; otherwise it returns
    with the inspector stored under the lowered name.  Two names with the
    same lowered form cannot both be registered: after [A], registering
    [a] panics. *)
Theorem Register_panics_iff (name : string) (a : Inspector) (reg : registry) :
  (panics (Register name a reg) <->
     name = "" \/ a = None \/ is_Some (reg !! ToLower name)) /\
  (~ panics (Register name a reg) ->
     Register name a reg = Returned (<[ToLower name := a]> reg)) /\
  (forall name' b reg',
     ToLower name' = ToLower name ->
     Register name a reg = Returned reg' ->
     panics (Register name' b reg')) /\
  (forall b reg',
     Register "A" a reg = Returned reg' -> panics (Register "a" b reg')).
Proof.
  assert (Hiff : panics (Register name a reg) <->
                 name = "" \/ a = None \/ is_Some (reg !! ToLower name)).
  { unfold Register. destruct (String.eqb_spec name "") as [-> | Hname].
    - cbn. tauto.
    - destruct a as [i|].
      + destruct (reg !! ToLower name) as [old|] eqn:Hreg; cbn.
        * split; [eauto | trivial].
        * split; [tauto |]. intros [? | [? | [? ?]]]; congruence.
      + cbn. tauto. }
  assert (Hdup : forall n n' (x y : Inspector) (m m' : registry),
            ToLower n' = ToLower n ->
            Register n x m = Returned m' -> panics (Register n' y m')).
  { intros n n' x y m m' Hlow. unfold Register.
    destruct (String.eqb n ""); [discriminate |].
    destruct x as [i|]; [|discriminate].
    destruct (m !! ToLower n) eqn:Hm; [discriminate |]. intros [= <-].
    destruct (String.eqb n' ""); [exact I |]. destruct y; [|exact I].
    rewrite Hlow, lookup_insert_eq. exact I. }
  split; [exact Hiff |]. split; [|split].
  - intros Hno. unfold Register in *.
    destruct (String.eqb name ""); [now cbn in Hno |].
    destruct a as [i|]; [|now cbn in Hno].
    destruct (reg !! ToLower name); [now cbn in Hno | reflexivity].
  - intros name' b reg'. apply Hdup.
  - intros b reg'. now apply Hdup.
Qed.

(** No registered name has a byte in ['A'..'Z']. *)
Lemma reachable_lower (reg : registry) :
  lowers -> reachable reg -> forall k, is_Some (reg !! k) -> hasUpper k = false.
Proof.
  intros Hl Hreach. induction Hreach as [|reg name a reg' _ IH Hreg|reg name _ IH].
  - intros k [a Ha]. now rewrite lookup_empty in Ha.
  - intros k Hk. unfold Register in Hreg.
    destruct (String.eqb name ""); [discriminate |].
    destruct a as [i|]; [|discriminate].
    destruct (reg !! ToLower name); [discriminate |].
    injection Hreg as <-.
    destruct (decide (ToLower name = k)) as [<- | Hne].
    + now apply ToLower_lower.
    + rewrite lookup_insert_ne in Hk by exact Hne. now apply IH.
  - intros k Hk. unfold Unregister in Hk.
    destruct (decide (name = k)) as [<- | Hne].
    + rewrite lookup_delete_eq in Hk. now destruct Hk.
    + rewrite lookup_delete_ne in Hk by exact Hne. now apply IH.
Qed.

(** Every registered name is one that lowering leaves as it is. *)
Lemma reachable_settled (reg : registry) :
  settles -> reachable reg -> forall k, is_Some (reg !! k) -> ToLower k = k.
Proof.
  intros Hs Hreach. induction Hreach as [|reg name a reg' _ IH Hreg|reg name _ IH].
  - intros k [a Ha]. now rewrite lookup_empty in Ha.
  - intros k Hk. unfold Register in Hreg.
    destruct (String.eqb name ""); [discriminate |].
    destruct a as [i|]; [|discriminate].
    destruct (reg !! ToLower name); [discriminate |].
    injection Hreg as <-.
    destruct (decide (ToLower name = k)) as [<- | Hne].
    + now apply ToLower_twice.
    + rewrite lookup_insert_ne in Hk by exact Hne. now apply IH.
  - intros k Hk. unfold Unregister in Hk.
    destruct (decide (name = k)) as [<- | Hne].
    + rewrite lookup_delete_eq in Hk. now destruct Hk.
    + rewrite lookup_delete_ne in Hk by exact Hne. now apply IH.
Qed.

(** C10, amended: only [Register] lowers the name.  After a name that
    lowering changes is registered (a name with a byte in ['A'..'Z'], or
    any name that [strings.ToLower] does not give back as it is), which
    stores the inspector under the lowered name, [Get] with the name as
    given finds nothing, [Set] with a token of that name returns the
    not-found error, [Unregister] with that name removes nothing, and
    [Get] with the lowered name finds the inspector.  Every all-ASCII
    name with a byte in ['A'..'Z'] is such a name.  A name that lowering
    leaves as it is, capitals without a lowercase form included, is found
    by [Get] as it was given. *)
Theorem mixed_case_name_not_found (name : string) (a : Inspector)
    (reg reg' : registry) :
  reachable reg ->
  Register name a reg = Returned reg' ->
  ((lowers /\ hasUpper name = true) \/ (settles /\ ToLower name <> name) ->
   ToLower name <> name /\
   Get name reg' = (None, false) /\
   (forall (inspectors : Inspectors) value rest,
      SplitN value "=" 2 = name :: rest ->
      Inspectors_Set inspectors value reg' =
        Returned {| inspectors' := inspectors;
                    err := Some (errors_New (notFound name reg'));
                    configured := [] |}) /\
   Get (ToLower name) reg' = (a, true) /\
   Unregister name reg' = reg') /\
  (isASCII name = true -> hasUpper name = true -> ToLower name <> name) /\
  (ToLower name = name -> Get name reg' = (a, true)).
Proof.
  intros Hreach Hreg.
  pose proof (reachable_Register reg name a reg' Hreach Hreg) as Hreach'.
  assert (Hsome : reg' !! ToLower name = Some a).
  { unfold Register in Hreg.
    destruct (String.eqb name ""); [discriminate |].
    destruct a as [i|]; [|discriminate].
    destruct (reg !! ToLower name); [discriminate |].
    injection Hreg as <-. apply lookup_insert_eq. }
  split; [|split].
  - intros Hcase.
    assert (Hchanged : ToLower name <> name).
    { destruct Hcase as [[Hl Hup] | [_ Hne]];
        [now apply ToLower_changes | exact Hne]. }
    assert (Hnone : reg' !! name = None).
    { destruct (reg' !! name) eqn:E; [|reflexivity]. exfalso.
      destruct Hcase as [[Hl Hup] | [Hs Hne]].
      - pose proof (reachable_lower reg' Hl Hreach' name) as Hinv.
        rewrite Hinv in Hup by (rewrite E; eauto). discriminate.
      - apply Hne, (reachable_settled reg' Hs Hreach'). rewrite E. eauto. }
    split; [exact Hchanged |]. repeat split.
    + unfold Get. now rewrite Hnone.
    + intros inspectors value rest Hsplit.
      now apply (Set_not_found _ _ _ name rest).
    + unfold Get. now rewrite Hsome.
    + unfold Unregister. now apply delete_id.
  - apply ToLower_changes_ASCII.
  - intros Hsame. unfold Get. rewrite Hsame in Hsome. now rewrite Hsome.
Qed.

(** The loop of [String] writes the rendering after what the buffer
    holds, with a comma in between from the second entry on. *)
Lemma String_range_render (idx : nat) (rest : Inspectors) (b : string) :
  String_range idx rest b =
    match rest with
    | [] => b
    | _ :: _ => (if (0 <? idx)%nat then b +:+ "," else b) +:+ render rest
    end.
Proof.
  revert idx b. induction rest as [|e rest IH]; intros idx b; [reflexivity |].
  cbn [String_range]. rewrite IH. unfold render, renderEntry. cbn [map].
  set (b0 := if (0 <? idx)%nat then b +:+ "," else b).
  destruct (String.eqb (Config e) ""); cbn [negb];
    destruct rest as [|e' rest]; cbn [Join map Nat.ltb Nat.leb];
    rewrite ?append_assoc; reflexivity.
Qed.

Lemma String_render (inspectors : Inspectors) :
  Inspectors_String inspectors = render inspectors.
Proof.
  unfold Inspectors_String. rewrite String_range_render.
  now destruct inspectors.
Qed.

(** [Set] rebuilds an entry that resolves from the rendering of that
    entry. *)
Lemma Set_rendered_entry (reg : registry) (before : Inspectors)
    (e : NamedInspector) :
  resolves reg e ->
  exists calls,
    Inspectors_Set before (Inspectors_String [e]) reg =
      Returned {| inspectors' := before ++ [e]; err := None;
                  configured := calls |}.
Proof.
  destruct e as [name config inspector].
  intros [Hname [registered [Hreg Hcases]]]. cbn in Hname, Hreg, Hcases.
  rewrite String_render, Set_by_cut. unfold render, renderEntry. cbn [map Join Name Config].
  unfold Inspector in *.
  destruct Hcases as [[-> ->] | [Hconfig [receiver [-> Hconf]]]].
  - cbn [String.eqb]. rewrite (cut_absent "=" name Hname), Hreg. cbn [String.eqb].
    eexists. reflexivity.
  - destruct (String.eqb_spec config "") as [-> | _]; [congruence |].
    pose proof (cut_first "=" name config Hname) as Hcut.
    change (String "=" config) with ("=" +:+ config) in Hcut.
    rewrite Hcut, Hreg.
    destruct (String.eqb_spec config "") as [-> | _]; [congruence |].
    rewrite Hconf. eexists. reflexivity.
Qed.

Lemma built_resolves (reg : registry) (inspectors : Inspectors) :
  built reg inspectors -> forall e, e ∈ inspectors -> resolves reg e.
Proof.
  induction 1 as [|inspectors value r _ IH Hset Herr].
  - intros e Hin. inversion Hin.
  - intros e Hin. apply Set_outcome in Hset. rewrite Herr in Hset.
    destruct Hset as [e' [Heq He']]. rewrite Heq in Hin.
    apply elem_of_app in Hin as [Hin | Hin]; [now apply IH |].
    apply list_elem_of_singleton in Hin. now subst.
Qed.

(** C1, amended: [Set] does not split its argument at commas.  It reads
    one token and appends at most one entry at the end of the slice, so
    the slice keeps the order of the calls: with [a], [b] and [c]
    registered and [b] accepting [cfg], the calls for [a], [b=cfg] and
    [c] give exactly [a], [b] configured with [cfg], and [c]; when [b] is
    not registered the call for [b=cfg] returns the error and appends
    nothing.  Given the whole of [a,b=cfg,c], [Set] looks up the name
    [a,b]. *)
Theorem Set_appends_in_call_order (reg : registry) (ia ic : T) :
  reg !! "a" = Some (Some ia) ->
  reg !! "c" = Some (Some ic) ->
  let A := {| Name := "a"; Config := ""; Inspector_ := Some ia |} in
  let C := {| Name := "c"; Config := ""; Inspector_ := Some ic |} in
  (forall ib ib',
     reg !! "b" = Some (Some ib) ->
     Configure ib "cfg" = (ib', None) ->
     let B := {| Name := "b"; Config := "cfg"; Inspector_ := ib' |} in
     Inspectors_Set [] "a" reg =
       Returned {| inspectors' := [A]; err := None; configured := [] |} /\
     Inspectors_Set [A] "b=cfg" reg =
       Returned {| inspectors' := [A; B]; err := None;
                   configured := [(ib, "cfg")] |} /\
     Inspectors_Set [A; B] "c" reg =
       Returned {| inspectors' := [A; B; C]; err := None;
                   configured := [] |}) /\
  (reg !! "b" = None ->
     Inspectors_Set [A] "b=cfg" reg =
       Returned {| inspectors' := [A];
                   err := Some (errors_New (notFound "b" reg));
                   configured := [] |}) /\
  (forall (inspectors : Inspectors) value r,
     Inspectors_Set inspectors value reg = Returned r ->
     inspectors' r = inspectors \/
     exists e, inspectors' r = inspectors ++ [e]) /\
  (forall inspectors : Inspectors,
     reg !! "a,b" = None ->
     Inspectors_Set inspectors "a,b=cfg,c" reg =
       Returned {| inspectors' := inspectors;
                   err := Some (errors_New (notFound "a,b" reg));
                   configured := [] |}).
Proof.
  intros Ha Hc A C. split; [|split; [|split]].
  - intros ib ib' Hb Hconf B. split; [|split].
    + rewrite Set_by_cut. change (cut "=" "a") with (@None (string * string)).
      unfold Inspector in *. now rewrite Ha.
    + rewrite Set_by_cut. change (cut "=" "b=cfg") with (Some ("b", "cfg")).
      unfold Inspector in *. rewrite Hb.
      change (String.eqb "cfg" "") with false. cbv iota. now rewrite Hconf.
    + rewrite Set_by_cut. change (cut "=" "c") with (@None (string * string)).
      unfold Inspector in *. now rewrite Hc.
  - intros Hb. now apply (Set_not_found _ _ _ "b" ["cfg"]).
  - intros inspectors value r Hset. apply Set_outcome in Hset.
    destruct (err r); [now left |]. right. destruct Hset as [e [Heq _]]. eauto.
  - intros inspectors Hab. now apply (Set_not_found _ _ _ "a,b" ["cfg,c"]).
Qed.

(** C6, amended: [String] writes, per entry, the name, or the name, [=]
    and the configuration when it is not empty, joined by commas.  [Set]
    reads one token and does not split at commas: for a policy built by
    [Set] from the registry, [Set] rebuilds each entry (name,
    configuration and inspector) from the rendering of that entry, so
    reading the entries back one by one rebuilds the policy; and the
    policy built by the calls for [x=1] and [y] renders as [x=1,y]. *)
Theorem String_renders_and_entries_reparse (reg : registry)
    (inspectors : Inspectors) :
  Inspectors_String inspectors = render inspectors /\
  (built reg inspectors ->
   forall (e : NamedInspector) (before : Inspectors),
     e ∈ inspectors ->
     exists calls,
       Inspectors_Set before (Inspectors_String [e]) reg =
         Returned {| inspectors' := before ++ [e]; err := None;
                     configured := calls |}) /\
  (forall (first second : Inspectors) c1 c2,
     Inspectors_Set [] "x=1" reg =
       Returned {| inspectors' := first; err := None; configured := c1 |} ->
     Inspectors_Set first "y" reg =
       Returned {| inspectors' := second; err := None; configured := c2 |} ->
     Inspectors_String second = "x=1,y").
Proof.
  split; [apply String_render |]. split.
  - intros Hbuilt e before Hin.
    apply Set_rendered_entry. now apply (built_resolves reg inspectors).
  - intros first second c1 c2 Hx Hy.
    rewrite Set_by_cut in Hx.
    change (cut "=" "x=1") with (Some ("x", "1")) in Hx.
    change (String.eqb "1" "") with false in Hx. cbv beta iota zeta in Hx.
    rewrite Set_by_cut in Hy.
    change (cut "=" "y") with (@None (string * string)) in Hy.
    change (String.eqb "" "") with true in Hy. cbv beta iota zeta in Hy.
    destruct (reg !! "x") as [[rx|]|]; try discriminate.
    destruct (Configure rx "1") as [ix [e|]]; [discriminate |].
    injection Hx as <- _.
    destruct (reg !! "y") as [iy|]; [|discriminate].
    injection Hy as <- _. reflexivity.
Qed.

End WithInspector.
End inspectorsFacts.

(** * The approver *)
Module alwaysFacts.
Import Go certificates always.

Section WithClient.
Context {C : Type} `{CertificateSigningRequestInterface C}.

Local Abbreviation heap := (gmap loc CertificateSigningRequest).

Lemma isKubeletBootstrapGroup_elem (groups : list string) :
  isKubeletBootstrapGroup groups = true <-> kubeletBootstrapGroup ∈ groups.
Proof.
  induction groups as [|group rest IH]; simpl.
  - split; [discriminate | intros Hin; inversion Hin].
  - rewrite elem_of_cons.
    destruct (String.eqb_spec group kubeletBootstrapGroup) as [-> | Hne].
    + tauto.
    + rewrite IH. split; [tauto |]. intros [Heq | Hin]; [congruence | exact Hin].
Qed.

(** One iteration on a request that a check stops. *)
Lemma Approve_for_stops fuel (client : C) (h : heap) l r log :
  h !! l = Some r ->
  ~ submittedByBootstrap r ->
  Approve_for (S fuel) client h (Some l) log =
    Some {| result := Returned None;
            objects := h; store := client; calls := log |}.
Proof.
  intros Hl Hno. cbn [Approve_for]. rewrite Hl.
  destruct (Conditions (Status r)) as [|c cs] eqn:Hconds; [|reflexivity].
  cbn [length Nat.ltb Nat.leb].
  destruct (String.eqb_spec (Username (Spec r)) kubeletBootstrapUsername)
    as [Huser | _]; [|reflexivity].
  cbn [negb].
  destruct (isKubeletBootstrapGroup (Groups (Spec r))) eqn:Hgroup; [|reflexivity].
  exfalso. apply Hno. unfold submittedByBootstrap. auto.
Qed.

(** One iteration on a request that the checks let through. *)
Lemma Approve_for_submits fuel (client : C) (h : heap) l r log :
  h !! l = Some r ->
  submittedByBootstrap r ->
  Approve_for (S fuel) client h (Some l) log =
    let r' := appendCondition r in
    let h1 := <[l := r']> h in
    let log1 := log ++ [UpdateApprovalCall r'] in
    match UpdateApproval client r' with
    | (client1, None) =>
        Some {| result := Returned None;
                objects := h1; store := client1; calls := log1 |}
    | (client1, Some e) =>
        if Contains (Error e) "the object has been modified" then
          let log2 := log1 ++ [GetCall (v1.Name (ObjectMeta r))] in
          match Get client1 (v1.Name (ObjectMeta r)) with
          | (client2, (fetched, Some e')) =>
              Some {| result := Returned (Some e');
                      objects := (new h1 fetched).1; store := client2;
                      calls := log2 |}
          | (client2, (fetched, None)) =>
              Approve_for fuel client2 (new h1 fetched).1 (new h1 fetched).2 log2
          end
        else
          Some {| result := Returned (Some e);
                  objects := h1; store := client1; calls := log1 |}
    end.
Proof.
  intros Hl (Hconds & Huser & Hgroup). cbn [Approve_for]. rewrite Hl, Hconds.
  cbn [length Nat.ltb Nat.leb]. rewrite Huser, String.eqb_refl. cbn [negb].
  rewrite Hgroup. cbn [negb].
  change (v1.Name (ObjectMeta (appendCondition r))) with (v1.Name (ObjectMeta r)).
  destruct (UpdateApproval client (appendCondition r)) as [client1 [e|]];
    [|reflexivity].
  destruct (Contains (Error e) "the object has been modified"); [|reflexivity].
  destruct (Get client1 (v1.Name (ObjectMeta r))) as [client2 [fetched [e'|]]];
    destruct (new (<[l:=appendCondition r]> h) fetched); reflexivity.
Qed.

(** Whether the checks let a request through can be decided. *)
Lemma submittedByBootstrap_dec r :
  submittedByBootstrap r \/ ~ submittedByBootstrap r.
Proof.
  unfold submittedByBootstrap.
  destruct (Conditions (Status r)) as [|c cs];
    [|right; intros [Hc _]; discriminate].
  destruct (String.eqb_spec (Username (Spec r)) kubeletBootstrapUsername)
    as [Huser | Huser]; [|right; tauto].
  destruct (isKubeletBootstrapGroup (Groups (Spec r)));
    [left; auto | right; intros (_ & _ & Hg); discriminate].
Qed.

(** The object of a client is put where no object was. *)
Lemma new_keeps (h : heap) o l r :
  h !! l = Some r -> (new h o).1 !! l = Some r /\ (new h o).2 <> Some l.
Proof.
  intros Hl. destruct o as [r2|]; cbn; [|split; [exact Hl | discriminate]].
  assert (Hfresh : fresh (dom h) <> l).
  { intros Heq. apply (is_fresh (dom h)). rewrite Heq.
    apply elem_of_dom. eauto. }
  split; [now rewrite lookup_insert_ne | congruence].
Qed.

(** The loop writes to the object it is entered with, once, and to
    nothing else of what the heap held then. *)
Lemma Approve_for_objects fuel :
  forall (client : C) (h : heap) request log run,
    Approve_for fuel client h request log = Some run ->
    forall l r0,
      h !! l = Some r0 ->
      objects run !! l = Some r0 \/
      (request = Some l /\ submittedByBootstrap r0 /\
       objects run !! l = Some (appendCondition r0)).
Proof.
  induction fuel as [|fuel IH]; intros client h request log run Hrun l r0 Hl;
    [discriminate |].
  destruct request as [l0|]; [|cbn in Hrun; injection Hrun as <-; now left].
  destruct (h !! l0) as [r|] eqn:Hl0;
    [|cbn in Hrun; rewrite Hl0 in Hrun; injection Hrun as <-; now left].
  destruct (submittedByBootstrap_dec r) as [Hsub | Hno].
  2:{ rewrite (Approve_for_stops _ _ _ _ r) in Hrun by assumption.
      injection Hrun as <-. now left. }
  rewrite (Approve_for_submits _ _ _ _ r) in Hrun by assumption.
  cbv zeta in Hrun.
  assert (Hh1 : forall h', h' = <[l0 := appendCondition r]> h ->
            h' !! l = Some r0 \/
            (Some l0 = Some l /\ submittedByBootstrap r0 /\
             h' !! l = Some (appendCondition r0))).
  { intros h' ->. destruct (decide (l0 = l)) as [<- | Hne].
    - right. rewrite lookup_insert_eq. split; [reflexivity |].
      assert (r0 = r) as -> by congruence. auto.
    - left. now rewrite lookup_insert_ne. }
  destruct (UpdateApproval client (appendCondition r)) as [client1 [e|]].
  2:{ injection Hrun as <-. now apply Hh1. }
  destruct (Contains (Error e) "the object has been modified").
  2:{ injection Hrun as <-. now apply Hh1. }
  destruct (Get client1 (v1.Name (ObjectMeta r))) as [client2 [fetched gerr]].
  destruct (Hh1 _ eq_refl) as [Hsame | (Heq & Hsub0 & Hupd)].
  - destruct (new_keeps _ fetched _ _ Hsame) as [Hkept Hother].
    destruct gerr as [e'|]; [injection Hrun as <-; now left |].
    destruct (IH _ _ _ _ _ Hrun _ _ Hkept) as [Hend | (Hreq & _)];
      [now left | contradiction].
  - destruct (new_keeps _ fetched _ _ Hupd) as [Hkept Hother].
    destruct gerr as [e'|]; [injection Hrun as <-; right; auto |].
    destruct (IH _ _ _ _ _ Hrun _ _ Hkept) as [Hend | (Hreq & _)];
      [right; auto | contradiction].
Qed.

(** Every update the loop submits carries the approval and nothing
    else. *)
Lemma Approve_for_calls fuel :
  forall (client : C) (h : heap) request log run,
    Approve_for fuel client h request log = Some run ->
    Forall approvesOnly log ->
    Forall approvesOnly (calls run).
Proof.
  induction fuel as [|fuel IH]; intros client h request log run Hrun Hlog;
    [discriminate |].
  destruct request as [l0|]; [|cbn in Hrun; injection Hrun as <-; exact Hlog].
  destruct (h !! l0) as [r|] eqn:Hl0;
    [|cbn in Hrun; rewrite Hl0 in Hrun; injection Hrun as <-; exact Hlog].
  destruct (submittedByBootstrap_dec r) as [Hsub | Hno].
  2:{ rewrite (Approve_for_stops _ _ _ _ r) in Hrun by assumption.
      injection Hrun as <-. exact Hlog. }
  rewrite (Approve_for_submits _ _ _ _ r) in Hrun by assumption.
  cbv zeta in Hrun.
  assert (Hlog1 : Forall approvesOnly
                    (log ++ [UpdateApprovalCall (appendCondition r)])).
  { apply Forall_app. split; [exact Hlog |]. constructor; [|constructor].
    destruct Hsub as [Hconds _]. cbn. now rewrite Hconds. }
  destruct (UpdateApproval client (appendCondition r)) as [client1 [e|]];
    [|injection Hrun as <-; exact Hlog1].
  destruct (Contains (Error e) "the object has been modified");
    [|injection Hrun as <-; exact Hlog1].
  assert (Hlog2 : Forall approvesOnly
                    ((log ++ [UpdateApprovalCall (appendCondition r)])
                       ++ [GetCall (v1.Name (ObjectMeta r))])).
  { apply Forall_app. split; [exact Hlog1 |]. repeat constructor. }
  destruct (Get client1 (v1.Name (ObjectMeta r))) as [client2 [fetched [e'|]]];
    [injection Hrun as <-; exact Hlog2 |].
  exact (IH _ _ _ _ _ Hrun Hlog2).
Qed.

(** C4: on a request that carries a condition already, [Approve]
    returns nil at once: no condition is appended, the client is not
    called, and the heap is as before; a second call on it finds the
    same and leaves the request and the store alone again. *)
Theorem Approve_decided_is_noop fuel fuel' (client : C) (h : heap) l r :
  h !! l = Some r ->
  Conditions (Status r) <> [] ->
  let run := {| result := Returned None;
                objects := h; store := client; calls := [] |} in
  Approve (S fuel) client h (Some l) = Some run /\
  Approve (S fuel') (store run) (objects run) (Some l) = Some run.
Proof.
  intros Hl Hconds run.
  assert (Hno : ~ submittedByBootstrap r) by (intros [Hc _]; contradiction).
  split; unfold Approve; cbn [store objects run];
    now apply (Approve_for_stops _ _ _ _ r).
Qed.

(** C5: on a request without conditions whose username is not
    [kubelet-bootstrap], or none of whose groups is
    [system:kubelet-bootstrap] (equality of strings, byte for byte),
    [Approve] returns nil, appends no condition and does not call the
    client.  And [Approve] never denies: every update it submits, on any
    request, carries the one condition of type [Approved] and nothing
    else, and an object of the heap ends as it was or with that condition
    appended. *)
Theorem Approve_abstains_never_denies (client : C) (h : heap) :
  (forall fuel l r,
     h !! l = Some r ->
     Conditions (Status r) = [] ->
     Username (Spec r) <> "kubelet-bootstrap" \/
       "system:kubelet-bootstrap" ∉ Groups (Spec r) ->
     Approve (S fuel) client h (Some l) =
       Some {| result := Returned None;
               objects := h; store := client; calls := [] |}) /\
  (forall fuel request run,
     Approve fuel client h request = Some run ->
     Forall approvesOnly (calls run) /\
     forall l r,
       h !! l = Some r ->
       objects run !! l = Some r \/
       objects run !! l = Some (appendCondition r)) /\
  Type_ condition = CertificateApproved.
Proof.
  split; [|split; [|reflexivity]].
  - intros fuel l r Hl Hconds Hother. apply (Approve_for_stops _ _ _ _ r [] Hl).
    intros (_ & Huser & Hgroup). destruct Hother as [Hne | Hnotin].
    + now apply Hne.
    + now apply Hnotin, isKubeletBootstrapGroup_elem.
  - intros fuel request run Hrun. split.
    + apply (Approve_for_calls _ _ _ _ _ _ Hrun). constructor.
    + intros l r Hl.
      destruct (Approve_for_objects _ _ _ _ _ _ Hrun l r Hl)
        as [Hsame | (_ & _ & Hupd)]; auto.
Qed.

(** C2, amended: when the update of a request that passed the checks
    fails with an error whose text does not tell a conflict, [Approve]
    returns that very error after that one call, without fetching and
    without a second try.  The condition it appended is not taken back:
    whenever [Approve] ends on such a request, with an error or without,
    the object of the caller carries the appended condition. *)
Theorem Approve_update_error_keeps_condition (client : C) (h : heap) l r :
  h !! l = Some r ->
  submittedByBootstrap r ->
  (forall fuel client' e,
     UpdateApproval client (appendCondition r) = (client', Some e) ->
     Contains (Error e) "the object has been modified" = false ->
     Approve (S fuel) client h (Some l) =
       Some {| result := Returned (Some e);
               objects := <[l := appendCondition r]> h;
               store := client';
               calls := [UpdateApprovalCall (appendCondition r)] |}) /\
  (forall fuel run,
     Approve fuel client h (Some l) = Some run ->
     objects run !! l = Some (appendCondition r)) /\
  Conditions (Status (appendCondition r)) = [condition].
Proof.
  intros Hl Hsub. split; [|split].
  - intros fuel client' e Hupdate Hcontains. unfold Approve.
    rewrite (Approve_for_submits _ _ _ _ r [] Hl Hsub). cbv zeta.
    now rewrite Hupdate, Hcontains.
  - intros [|fuel] run Hrun; [discriminate |]. unfold Approve in Hrun.
    rewrite (Approve_for_submits _ _ _ _ r [] Hl Hsub) in Hrun. cbv zeta in Hrun.
    assert (Hwritten : <[l := appendCondition r]> h !! l
                       = Some (appendCondition r)) by apply lookup_insert_eq.
    destruct (UpdateApproval client (appendCondition r)) as [client1 [e|]];
      [|now injection Hrun as <-].
    destruct (Contains (Error e) "the object has been modified");
      [|now injection Hrun as <-].
    destruct (Get client1 (v1.Name (ObjectMeta r))) as [client2 [fetched gerr]].
    destruct (new_keeps _ fetched _ _ Hwritten) as [Hkept Hother].
    destruct gerr as [e'|]; [now injection Hrun as <- |].
    destruct (Approve_for_objects _ _ _ _ _ _ Hrun _ _ Hkept)
      as [Hend | (Hreq & _)]; [exact Hend | contradiction].
  - destruct Hsub as [Hconds _]. cbn. now rewrite Hconds.
Qed.

(** C3: when the update of a request that passed the checks fails,
    the text of the error decides.  With the conflict text in it, the
    object is fetched again by its name; an error of the fetch is
    returned; otherwise the loop is entered again from its top on the
    fetched object, so that the three checks run on it before any second
    update: a fetched object that a check stops ends the call with nil
    and no further call, and one that passes them is given the condition
    and submitted.  Without the conflict text, the error of the update is
    returned at once, with no fetch and no second try. *)
Theorem Approve_update_failure fuel (client client1 : C) (h : heap) l r log e :
  h !! l = Some r ->
  submittedByBootstrap r ->
  UpdateApproval client (appendCondition r) = (client1, Some e) ->
  let h1 := <[l := appendCondition r]> h in
  let log1 := log ++ [UpdateApprovalCall (appendCondition r)] in
  let log2 := log1 ++ [GetCall (v1.Name (ObjectMeta r))] in
  if Contains (Error e) "the object has been modified" then
    forall client2 fetched gerr,
      Get client1 (v1.Name (ObjectMeta r)) = (client2, (fetched, gerr)) ->
      match gerr with
      | Some e' =>
          Approve_for (S fuel) client h (Some l) log =
            Some {| result := Returned (Some e');
                    objects := (new h1 fetched).1; store := client2;
                    calls := log2 |}
      | None =>
          Approve_for (S fuel) client h (Some l) log =
            Approve_for fuel client2 (new h1 fetched).1 (new h1 fetched).2 log2 /\
          (forall r2,
             fetched = Some r2 ->
             ~ submittedByBootstrap r2 ->
             Approve_for (S (S fuel)) client h (Some l) log =
               Some {| result := Returned None;
                       objects := (new h1 fetched).1; store := client2;
                       calls := log2 |}) /\
          (forall r2 client3,
             fetched = Some r2 ->
             submittedByBootstrap r2 ->
             UpdateApproval client2 (appendCondition r2) = (client3, None) ->
             Approve_for (S (S fuel)) client h (Some l) log =
               Some {| result := Returned None;
                       objects := <[fresh (dom h1) := appendCondition r2]>
                                    (new h1 fetched).1;
                       store := client3;
                       calls := log2 ++ [UpdateApprovalCall (appendCondition r2)] |})
      end
  else
    Approve_for (S fuel) client h (Some l) log =
      Some {| result := Returned (Some e);
              objects := h1; store := client1; calls := log1 |}.
Proof.
  intros Hl Hsub Hupdate h1 log1 log2.
  destruct (Contains (Error e) "the object has been modified") eqn:Hcontains.
  - intros client2 fetched gerr Hget.
    assert (Hstep : forall n,
              Approve_for (S n) client h (Some l) log =
                match gerr with
                | Some e' =>
                    Some {| result := Returned (Some e');
                            objects := (new h1 fetched).1; store := client2;
                            calls := log2 |}
                | None =>
                    Approve_for n client2 (new h1 fetched).1
                      (new h1 fetched).2 log2
                end).
    { intros n. rewrite (Approve_for_submits _ _ _ _ r log Hl Hsub). cbv zeta.
      rewrite Hupdate, Hcontains, Hget. now destruct gerr. }
    destruct gerr as [e'|]; [apply Hstep |]. split; [apply Hstep |]. split.
    + intros r2 -> Hno. rewrite Hstep. cbn [new fst snd].
      apply (Approve_for_stops _ _ _ _ r2); [apply lookup_insert_eq | exact Hno].
    + intros r2 client3 -> Hsub2 Hretry. rewrite Hstep. cbn [new fst snd].
      rewrite (Approve_for_submits _ _ _ _ r2 log2
                 (lookup_insert_eq _ _ _) Hsub2).
      cbv zeta. now rewrite Hretry.
  - rewrite (Approve_for_submits _ _ _ _ r log Hl Hsub). cbv zeta.
    now rewrite Hupdate, Hcontains.
Qed.

End WithClient.
End alwaysFacts.

(** * The theorems on the sample instances *)
Module inspectorsExamples.
Import Go GoFacts inspectors inspectorsFacts samples.

#[local] Existing Instance bytewise.
#[local] Existing Instance sampleMethods.

(** C9 at the token [b=k=v=w]: the name is [b], the configuration
    [k=v=w], and [Configure] is called once with it. *)
Lemma Set_splits_at_first_equals_witness :
  anyByte (Ascii.eqb "=") "b" = false /\
  registryOf ["b"] !! "b" = Some (Some (Sample "b" "")) /\
  Inspectors_Set [] "b=k=v=w" (registryOf ["b"]) =
    Returned {| inspectors' :=
                  [{| Name := "b"; Config := "k=v=w";
                      Inspector_ := Some (Sample "b" "k=v=w") |}];
                err := None;
                configured := [(Sample "b" "", "k=v=w")] |}.
Proof.
  assert (Hname : anyByte (Ascii.eqb "=") "b" = false) by reflexivity.
  assert (Hreg : registryOf ["b"] !! "b" = Some (Some (Sample "b" "")))
    by (vm_compute; reflexivity).
  split; [exact Hname |]. split; [exact Hreg |].
  exact (proj2 (proj2 (proj2
    (Set_splits_at_first_equals [] (registryOf ["b"]) "b" "k=v=w"
       (Sample "b" "") Hname Hreg)))).
Defined.

(** C8 at the token [b=cfg] with only [a] and [c] registered, and at the
    token [a=bad], whose configuration the sample inspector rejects. *)
Lemma Set_error_keeps_slice_witness :
  let first := {| Name := "c"; Config := ""; Inspector_ := Some (Sample "c" "") |} in
  SplitN "b=cfg" "=" 2 = ["b"; "cfg"] /\
  registryOf ["a"; "c"] !! "b" = None /\
  (exists msg,
     Inspectors_Set [first] "b=cfg" (registryOf ["a"; "c"]) =
       Returned {| inspectors' := [first]; err := Some (errors_New msg);
                   configured := [] |} /\
     Contains msg "b" = true /\
     Contains msg "a" = true /\
     Contains msg "c" = true) /\
  SplitN "a=bad" "=" 2 = ["a"; "bad"] /\
  registryOf ["a"; "c"] !! "a" = Some (Some (Sample "a" "")) /\
  Configure (Sample "a" "") "bad" = (None, Some (errors_New "bad configuration")) /\
  Inspectors_Set [first] "a=bad" (registryOf ["a"; "c"]) =
    Returned {| inspectors' := [first];
                err := Some (errors_New "bad configuration");
                configured := [(Sample "a" "", "bad")] |} /\
  inspectors' {| inspectors' := [first];
                 err := Some (errors_New "bad configuration");
                 configured := [(Sample "a" "", "bad")] |} = [first].
Proof.
  intros first.
  assert (Hsplit : SplitN "b=cfg" "=" 2 = ["b"; "cfg"]) by reflexivity.
  assert (Hnone : registryOf ["a"; "c"] !! "b" = None)
    by (vm_compute; reflexivity).
  assert (Hsplit' : SplitN "a=bad" "=" 2 = ["a"; "bad"]) by reflexivity.
  assert (Hconfig : "bad" <> "") by discriminate.
  assert (Hreg : registryOf ["a"; "c"] !! "a" = Some (Some (Sample "a" "")))
    by (vm_compute; reflexivity).
  assert (Hconf : Configure (Sample "a" "") "bad"
                  = (None, Some (errors_New "bad configuration")))
    by reflexivity.
  pose proof (proj2 (proj2 (proj2
    (Set_error_keeps_slice [first] "a=bad" (registryOf ["a"; "c"]))))
    "a" "bad" (Sample "a" "") None (errors_New "bad configuration")
    Hsplit' Hconfig Hreg Hconf) as Hbad.
  split; [exact Hsplit |]. split; [exact Hnone |]. split.
  - destruct (proj1 (Set_error_keeps_slice [first] "b=cfg"
                       (registryOf ["a"; "c"]))
                "b" ["cfg"] Hsplit Hnone)
      as (msg & Hset & _ & _ & Hplain & Hlisted).
    exists msg. split; [exact Hset |]. split; [now apply Hplain |].
    split; apply Hlisted; vm_compute; eauto.
  - split; [exact Hsplit' |]. split; [exact Hreg |]. split; [exact Hconf |].
    split; [exact Hbad |].
    exact (proj1 (proj2 (proj2
      (Set_error_keeps_slice [first] "a=bad" (registryOf ["a"; "c"]))))
      _ (errors_New "bad configuration") Hbad eq_refl).
Defined.

(** C7 at the names [A] and [a], and at the empty name. *)
Lemma Register_panics_iff_witness :
  Register "A" (Some (Sample "a" "")) ∅
    = Returned {["a" := Some (Sample "a" "")]} /\
  panics (Register "a" (Some (Sample "other" "")) {["a" := Some (Sample "a" "")]}) /\
  panics (Register "" (Some (Sample "a" "")) ∅).
Proof.
  assert (Hfirst : Register "A" (Some (Sample "a" "")) ∅
                   = Returned {["a" := Some (Sample "a" "")]}) by reflexivity.
  split; [exact Hfirst |]. split.
  - exact (proj2 (proj2 (proj2
      (Register_panics_iff "A" (Some (Sample "a" "")) ∅)))
      (Some (Sample "other" "")) _ Hfirst).
  - apply (proj1 (Register_panics_iff "" (Some (Sample "a" "")) ∅)).
    left. reflexivity.
Defined.

(** The sample instance lowers byte by byte, so lowering what it gave
    changes nothing. *)
Lemma bytewise_settles : settles.
Proof.
  intros s. unfold ToLower. cbn [mapToLower bytewise].
  destruct (isASCII (mapBytes lowerByte s)); apply mapBytes_twice.
Qed.

(** C10 as stated fails: U+2102 is an uppercase character, and
    [strings.ToLower] gives the name made of it back as it is, which is
    what the sample instance does on its three bytes; [Register] stores
    the inspector under the name as given and [Get] with that name finds
    it. *)
Lemma capital_without_lowercase_counterexample :
  let name := capitals.doubleStruckC in
  ToLower name = name /\
  Register name (Some (Sample "c" "")) ∅
    = Returned {[name := Some (Sample "c" "")]} /\
  Get name {[name := Some (Sample "c" "")]} = (Some (Sample "c" ""), true) /\
  Get name {[name := Some (Sample "c" "")]} <> (None, false).
Proof.
  repeat split; try reflexivity. discriminate.
Qed.

(** C10, amended, at the name [KeyUsage], registered first: by its
    capitals, and as a name that lowering changes. *)
Lemma mixed_case_name_not_found_witness :
  lowers /\
  settles /\
  reachable (∅ : gmap string (option sample)) /\
  hasUpper "KeyUsage" = true /\
  ToLower "KeyUsage" <> "KeyUsage" /\
  Register "KeyUsage" (Some (Sample "keyusage" "")) ∅
    = Returned {["keyusage" := Some (Sample "keyusage" "")]} /\
  Get "KeyUsage" {["keyusage" := Some (Sample "keyusage" "")]} = (None, false) /\
  Get "keyusage" {["keyusage" := Some (Sample "keyusage" "")]}
    = (Some (Sample "keyusage" ""), true) /\
  Unregister "KeyUsage" {["keyusage" := Some (Sample "keyusage" "")]}
    = {["keyusage" := Some (Sample "keyusage" "")]}.
Proof.
  assert (Hlowers : lowers) by exact mapBytes_lower.
  assert (Hsettles : settles) by exact bytewise_settles.
  assert (Hreach : reachable (∅ : gmap string (option sample)))
    by exact reachable_init.
  assert (Hupper : hasUpper "KeyUsage" = true) by reflexivity.
  assert (Hchanged : ToLower "KeyUsage" <> "KeyUsage") by discriminate.
  assert (Hreg : Register "KeyUsage" (Some (Sample "keyusage" "")) ∅
                 = Returned {["keyusage" := Some (Sample "keyusage" "")]})
    by reflexivity.
  destruct (proj1 (mixed_case_name_not_found "KeyUsage"
                     (Some (Sample "keyusage" "")) ∅ _ Hreach Hreg)
              (or_intror (conj Hsettles Hchanged)))
    as (_ & Hget & _ & Hlow & Hunregister).
  destruct (proj1 (mixed_case_name_not_found "KeyUsage"
                     (Some (Sample "keyusage" "")) ∅ _ Hreach Hreg)
              (or_introl (conj Hlowers Hupper)))
    as (_ & Hget' & _).
  repeat split; assumption.
Defined.

(** C1 as stated fails: with [a], [b] and [c] registered, [Set] on the
    whole of [a,b=cfg,c] looks up the name [a,b], returns the not-found
    error and builds nothing, where the claim has three members. *)
Lemma Set_whole_spec_counterexample :
  let reg := registryOf ["a"; "b"; "c"] in
  Inspectors_Set [] "a,b=cfg,c" reg =
    Returned {| inspectors' := [];
                err := Some (errors_New (notFound "a,b" reg));
                configured := [] |} /\
  forall r,
    Inspectors_Set [] "a,b=cfg,c" reg = Returned r ->
    inspectors' r <>
      [{| Name := "a"; Config := ""; Inspector_ := Some (Sample "a" "") |};
       {| Name := "b"; Config := "cfg"; Inspector_ := Some (Sample "b" "cfg") |};
       {| Name := "c"; Config := ""; Inspector_ := Some (Sample "c" "") |}].
Proof.
  assert (Hset : Inspectors_Set [] "a,b=cfg,c" (registryOf ["a"; "b"; "c"]) =
            Returned {| inspectors' := [];
                        err := Some (errors_New
                                 (notFound "a,b" (registryOf ["a"; "b"; "c"])));
                        configured := [] |})
    by (vm_compute; reflexivity).
  split; [exact Hset |].
  intros r Hr. rewrite Hset in Hr. injection Hr as <-. discriminate.
Qed.

(** C1, amended, on the sample registry. *)
Lemma Set_appends_in_call_order_witness :
  let reg := registryOf ["a"; "b"; "c"] in
  let A := {| Name := "a"; Config := ""; Inspector_ := Some (Sample "a" "") |} in
  let B := {| Name := "b"; Config := "cfg";
              Inspector_ := Some (Sample "b" "cfg") |} in
  let C := {| Name := "c"; Config := ""; Inspector_ := Some (Sample "c" "") |} in
  reg !! "a" = Some (Some (Sample "a" "")) /\
  reg !! "c" = Some (Some (Sample "c" "")) /\
  Inspectors_Set [] "a" reg =
    Returned {| inspectors' := [A]; err := None; configured := [] |} /\
  Inspectors_Set [A] "b=cfg" reg =
    Returned {| inspectors' := [A; B]; err := None;
                configured := [(Sample "b" "", "cfg")] |} /\
  Inspectors_Set [A; B] "c" reg =
    Returned {| inspectors' := [A; B; C]; err := None; configured := [] |}.
Proof.
  intros reg A B C.
  assert (Ha : reg !! "a" = Some (Some (Sample "a" "")))
    by (vm_compute; reflexivity).
  assert (Hc : reg !! "c" = Some (Some (Sample "c" "")))
    by (vm_compute; reflexivity).
  assert (Hb : reg !! "b" = Some (Some (Sample "b" "")))
    by (vm_compute; reflexivity).
  split; [exact Ha |]. split; [exact Hc |].
  exact (proj1 (Set_appends_in_call_order reg (Sample "a" "") (Sample "c" "")
                  Ha Hc)
           (Sample "b" "") (Some (Sample "b" "cfg")) Hb eq_refl).
Defined.

(** C6 as stated fails: the policy built by the calls for [x=1] and [y]
    renders as [x=1,y], and [Set] on that rendering gives the one entry
    [x] configured with [1,y], not the policy. *)
Lemma Set_of_String_counterexample :
  let reg := registryOf ["x"; "y"] in
  let X := {| Name := "x"; Config := "1"; Inspector_ := Some (Sample "x" "1") |} in
  let Y := {| Name := "y"; Config := ""; Inspector_ := Some (Sample "y" "") |} in
  Inspectors_Set [] "x=1" reg =
    Returned {| inspectors' := [X]; err := None;
                configured := [(Sample "x" "", "1")] |} /\
  Inspectors_Set [X] "y" reg =
    Returned {| inspectors' := [X; Y]; err := None; configured := [] |} /\
  Inspectors_String [X; Y] = "x=1,y" /\
  Inspectors_Set [] (Inspectors_String [X; Y]) reg =
    Returned {| inspectors' :=
                  [{| Name := "x"; Config := "1,y";
                      Inspector_ := Some (Sample "x" "1,y") |}];
                err := None;
                configured := [(Sample "x" "", "1,y")] |} /\
  [{| Name := "x"; Config := "1,y";
      Inspector_ := Some (Sample "x" "1,y") |}] <> [X; Y].
Proof.
  repeat split; try (vm_compute; reflexivity). discriminate.
Qed.

(** C6, amended, on the policy built by the calls for [x=1] and [y]. *)
Lemma String_renders_and_entries_reparse_witness :
  let reg := registryOf ["x"; "y"] in
  let X := {| Name := "x"; Config := "1"; Inspector_ := Some (Sample "x" "1") |} in
  let Y := {| Name := "y"; Config := ""; Inspector_ := Some (Sample "y" "") |} in
  built reg [X; Y] /\
  Inspectors_String [X; Y] = "x=1,y" /\
  exists calls,
    Inspectors_Set [Y] (Inspectors_String [X]) reg =
      Returned {| inspectors' := [Y; X]; err := None; configured := calls |}.
Proof.
  intros reg X Y.
  assert (Hx : Inspectors_Set [] "x=1" reg =
                 Returned {| inspectors' := [X]; err := None;
                             configured := [(Sample "x" "", "1")] |})
    by (vm_compute; reflexivity).
  assert (Hy : Inspectors_Set [X] "y" reg =
                 Returned {| inspectors' := [X; Y]; err := None;
                             configured := [] |})
    by (vm_compute; reflexivity).
  assert (Hbuilt : built reg [X; Y]).
  { exact (built_Set reg [X] "y" _
             (built_Set reg [] "x=1" _ (built_nil reg) Hx eq_refl) Hy eq_refl). }
  destruct (String_renders_and_entries_reparse reg [X; Y])
    as (_ & Hentries & Hrender).
  split; [exact Hbuilt |]. split.
  - exact (Hrender [X] [X; Y] _ _ Hx Hy).
  - apply (Hentries Hbuilt X [Y]). left.
Defined.

End inspectorsExamples.

Module alwaysExamples.
Import Go certificates always alwaysFacts samples.

#[local] Existing Instance scripted.

(** C2 as stated fails: the update of a bootstrap request fails with an
    error that tells no conflict; [Approve] returns it, and the request of
    the caller, which had no condition, carries the appended one. *)
Lemma Approve_update_error_counterexample :
  let client := {| updates := [Some unavailable]; fetches := [] |} in
  Conditions (Status (bootstrap "csr-1")) = [] /\
  Contains (Error unavailable) "the object has been modified" = false /\
  exists run,
    Approve 1 client (only (bootstrap "csr-1")) (Some 1%positive) = Some run /\
    result run = Returned (Some unavailable) /\
    (Conditions ∘ Status) <$> (objects run !! 1%positive) = Some [condition] /\
    objects run !! 1%positive <> only (bootstrap "csr-1") !! 1%positive.
Proof.
  split; [reflexivity |]. split; [reflexivity |].
  eexists. split; [vm_compute; reflexivity |].
  split; [reflexivity |]. split; [vm_compute; reflexivity |].
  vm_compute. discriminate.
Qed.

(** C2, amended, on that request and client. *)
Lemma Approve_update_error_keeps_condition_witness :
  let client := {| updates := [Some unavailable]; fetches := [] |} in
  let r := bootstrap "csr-1" in
  only r !! 1%positive = Some r /\
  submittedByBootstrap r /\
  Approve 1 client (only r) (Some 1%positive) =
    Some {| result := Returned (Some unavailable);
            objects := <[1%positive := appendCondition r]> (only r);
            store := {| updates := []; fetches := [] |};
            calls := [UpdateApprovalCall (appendCondition r)] |}.
Proof.
  intros client r.
  assert (Hl : only r !! 1%positive = Some r) by (vm_compute; reflexivity).
  assert (Hsub : submittedByBootstrap r) by (repeat split; reflexivity).
  split; [exact Hl |]. split; [exact Hsub |].
  exact (proj1 (Approve_update_error_keeps_condition client (only r)
                  1%positive r Hl Hsub)
           0 {| updates := []; fetches := [] |} unavailable eq_refl eq_refl).
Defined.

(** C3 on a store whose first update conflicts and which then hands
    back the request denied by someone else: one update, one fetch, and
    the checks on the fetched object end the call. *)
Lemma Approve_update_failure_witness :
  let r := bootstrap "csr-1" in
  let r2 := request "csr-1" "kubelet-bootstrap" ["system:kubelet-bootstrap"]
              [denied] in
  let client := {| updates := [Some conflict]; fetches := [(Some r2, None)] |} in
  let client1 := {| updates := []; fetches := [(Some r2, None)] |} in
  let client2 := {| updates := []; fetches := [] |} in
  only r !! 1%positive = Some r /\
  submittedByBootstrap r /\
  UpdateApproval client (appendCondition r) = (client1, Some conflict) /\
  Approve_for 2 client (only r) (Some 1%positive) [] =
    Some {| result := Returned None;
            objects := (new (<[1%positive := appendCondition r]> (only r))
                          (Some r2)).1;
            store := client2;
            calls := [UpdateApprovalCall (appendCondition r); GetCall "csr-1"] |}.
Proof.
  intros r r2 client client1 client2.
  assert (Hl : only r !! 1%positive = Some r) by (vm_compute; reflexivity).
  assert (Hsub : submittedByBootstrap r) by (repeat split; reflexivity).
  assert (Hupdate : UpdateApproval client (appendCondition r)
                    = (client1, Some conflict)) by reflexivity.
  split; [exact Hl |]. split; [exact Hsub |]. split; [exact Hupdate |].
  pose proof (Approve_update_failure 0 client client1 (only r) 1%positive r []
                conflict Hl Hsub Hupdate) as Hfail.
  cbv zeta in Hfail.
  change (Contains (Error conflict) "the object has been modified")
    with true in Hfail.
  destruct (Hfail client2 (Some r2) None eq_refl) as (_ & Hstops & _).
  apply (Hstops r2 eq_refl). intros [Hconds _]. discriminate.
Defined.

(** The retry converges: a conflict on the first update, the request
    fetched again unchanged, and the second update goes through. *)
Example Approve_retry_converges :
  let r := bootstrap "csr-1" in
  let client := {| updates := [Some conflict]; fetches := [(Some r, None)] |} in
  (fun run => (result run, calls run)) <$>
    Approve 2 client (only r) (Some 1%positive) =
  Some (Returned None,
        [UpdateApprovalCall (appendCondition r); GetCall "csr-1";
         UpdateApprovalCall (appendCondition r)]).
Proof. vm_compute. reflexivity. Qed.

(** C4 on a request that was denied. *)
Lemma Approve_decided_is_noop_witness :
  let r := request "csr-1" "kubelet-bootstrap" ["system:kubelet-bootstrap"]
             [denied] in
  let client := {| updates := [Some unavailable]; fetches := [] |} in
  only r !! 1%positive = Some r /\
  Conditions (Status r) <> [] /\
  Approve 1 client (only r) (Some 1%positive) =
    Some {| result := Returned None;
            objects := only r; store := client; calls := [] |}.
Proof.
  intros r client.
  assert (Hl : only r !! 1%positive = Some r) by (vm_compute; reflexivity).
  assert (Hconds : Conditions (Status r) <> []) by discriminate.
  split; [exact Hl |]. split; [exact Hconds |].
  exact (proj1 (Approve_decided_is_noop 0 0 client (only r) 1%positive r
                  Hl Hconds)).
Defined.

(** C5 on a request whose username differs from the bootstrap one by
    the case of two letters. *)
Lemma Approve_abstains_never_denies_witness :
  let r := request "csr-1" "Kubelet-Bootstrap" ["system:kubelet-bootstrap"] [] in
  let client := {| updates := []; fetches := [] |} in
  only r !! 1%positive = Some r /\
  Conditions (Status r) = [] /\
  Username (Spec r) <> "kubelet-bootstrap" /\
  Approve 1 client (only r) (Some 1%positive) =
    Some {| result := Returned None;
            objects := only r; store := client; calls := [] |}.
Proof.
  intros r client.
  assert (Hl : only r !! 1%positive = Some r) by (vm_compute; reflexivity).
  assert (Huser : Username (Spec r) <> "kubelet-bootstrap") by discriminate.
  split; [exact Hl |]. split; [reflexivity |]. split; [exact Huser |].
  exact (proj1 (Approve_abstains_never_denies client (only r))
           0 1%positive r Hl eq_refl (or_introl Huser)).
Defined.

End alwaysExamples.

(** * More on the registry and the policy flag *)
Module inspectorsMore.
Import Go GoFacts inspectors inspectorsFacts.

Lemma mapBytes_lower_id s : hasUpper s = false -> mapBytes lowerByte s = s.
Proof.
  unfold hasUpper. induction s as [|c s IH]; simpl; [reflexivity |].
  intros Hno. apply orb_false_iff in Hno as [Hc Hs].
  rewrite IH by exact Hs. unfold lowerByte. now rewrite Hc.
Qed.

Lemma Join_app (l1 l2 : list string) sep :
  l1 <> [] -> l2 <> [] ->
  Join (l1 ++ l2) sep = Join l1 sep +:+ sep +:+ Join l2 sep.
Proof.
  intros H1 H2. induction l1 as [|e l1 IH]; [contradiction |].
  destruct l1 as [|e' l1].
  - destruct l2; [contradiction | reflexivity].
  - change (Join ((e :: e' :: l1) ++ l2) sep)
      with (e +:+ sep +:+ Join ((e' :: l1) ++ l2) sep).
    rewrite IH by discriminate.
    change (Join (e :: e' :: l1) sep) with (e +:+ sep +:+ Join (e' :: l1) sep).
    now rewrite !append_assoc.
Qed.

Section WithInspector.
Context `{Unicode} {T : Type} `{InspectorMethods T}.

Local Abbreviation registry := (gmap string (@Inspector T)).
Local Abbreviation Inspectors := (@Inspectors T).

(** What a call of [Register] that returns did. *)
Lemma Register_Returned name (a : Inspector) (reg reg' : registry) :
  Register name a reg = Returned reg' ->
  name <> "" /\ a <> None /\ reg !! ToLower name = None /\
  reg' = <[ToLower name := a]> reg.
Proof.
  unfold Register. destruct (String.eqb_spec name "") as [-> | Hname];
    [discriminate |].
  destruct a as [i|]; [|discriminate].
  destruct (reg !! ToLower name) eqn:Hreg; [discriminate |].
  intros [= <-]. repeat split; congruence.
Qed.

(** X1: after [Register] returns, [Get] with the lowered name gives the
    inspector back, the other names are looked up as before, and for an
    all-ASCII name without a byte in ['A'..'Z'] the name itself finds the
    inspector. *)
Theorem Register_then_Get name (a : Inspector) (reg reg' : registry) :
  Register name a reg = Returned reg' ->
  Get (ToLower name) reg' = (a, true) /\
  (forall k, k <> ToLower name -> Get k reg' = Get k reg) /\
  (isASCII name = true -> hasUpper name = false ->
   Get name reg' = (a, true)).
Proof.
  intros Hreg. apply Register_Returned in Hreg as (_ & _ & _ & ->).
  assert (Hget : Get (ToLower name) (<[ToLower name := a]> reg) = (a, true)).
  { unfold Get. now rewrite lookup_insert_eq. }
  split; [exact Hget |]. split.
  - intros k Hk. unfold Get. now rewrite lookup_insert_ne.
  - intros Hascii Hlower. rewrite <- Hget at 1. f_equal.
    unfold ToLower. rewrite Hascii. symmetry. now apply mapBytes_lower_id.
Qed.

(** X2: [Unregister] with the lowered name undoes a [Register] that
    returned: the registry is the one before, and the name can be
    registered again. *)
Theorem Unregister_undoes_Register name (a : Inspector) (reg reg' : registry) :
  Register name a reg = Returned reg' ->
  Unregister (ToLower name) reg' = reg /\
  (forall b : T,
     Register name (Some b) (Unregister (ToLower name) reg') =
       Returned (<[ToLower name := Some b]> reg)).
Proof.
  intros Hreg. apply Register_Returned in Hreg as (Hname & _ & Hfree & ->).
  assert (Hundo : Unregister (ToLower name) (<[ToLower name := a]> reg) = reg).
  { unfold Unregister. now apply delete_insert_id. }
  split; [exact Hundo |]. intros b. rewrite Hundo. unfold Register.
  destruct (String.eqb_spec name "") as [-> | _]; [contradiction |].
  unfold Inspector in *. now rewrite Hfree.
Qed.

(** X3: [List] follows the registry: [Register] adds the lowered name to
    the names listed, [Unregister] takes a registered name out and
    leaves the list alone for any other string, and nothing is listed for
    the empty registry. *)
Theorem List_follows_registry (reg : registry) :
  (forall name a reg',
     Register name a reg = Returned reg' ->
     List reg' ≡ₚ ToLower name :: List reg) /\
  (forall name,
     is_Some (reg !! name) ->
     name :: List (Unregister name reg) ≡ₚ List reg) /\
  (forall name,
     reg !! name = None -> List (Unregister name reg) = List reg) /\
  List (∅ : registry) = [].
Proof.
  split; [|split; [|split]].
  - intros name a reg' Hreg.
    apply Register_Returned in Hreg as (_ & _ & Hfree & ->).
    unfold List. now rewrite (map_to_list_insert reg _ a Hfree).
  - intros name [a Ha]. unfold List, Unregister.
    now rewrite <- (map_to_list_delete reg name a Ha).
  - intros name Hnone. unfold Unregister. now rewrite delete_id.
  - unfold List. now rewrite map_to_list_empty.
Qed.

(** No registry made by [Register] and [Unregister] holds a nil
    inspector. *)
Lemma reachable_not_nil (reg : registry) :
  reachable reg -> forall k, reg !! k <> Some None.
Proof.
  induction 1 as [|reg name a reg' _ IH Hreg|reg name _ IH]; intros k.
  - now rewrite lookup_empty.
  - apply Register_Returned in Hreg as (_ & Ha & _ & ->).
    destruct (decide (ToLower name = k)) as [<- | Hne].
    + rewrite lookup_insert_eq. congruence.
    + rewrite lookup_insert_ne by exact Hne. apply IH.
  - unfold Unregister. destruct (decide (name = k)) as [<- | Hne].
    + now rewrite lookup_delete_eq.
    + rewrite lookup_delete_ne by exact Hne. apply IH.
Qed.

(** X4: no registry made by [Register] and [Unregister] holds the nil
    interface: when [Get] tells that there is an inspector, the inspector
    is not nil.  The guard of [Register] is what [Set] relies on: on a map
    that held the nil interface under a name, [Set] with a configuration
    for that name panics at the call of [Configure], and [Set] with the
    name alone appends the nil inspector. *)
Theorem registered_never_nil (reg : registry) :
  (reachable reg ->
   forall name inspector,
     Get name reg = (inspector, true) -> inspector <> None) /\
  (forall (inspectors : Inspectors) name config,
     anyByte (Ascii.eqb "=") name = false ->
     config <> "" ->
     reg !! name = Some None ->
     panics (Inspectors_Set inspectors (name +:+ "=" +:+ config) reg) /\
     Inspectors_Set inspectors name reg =
       Returned {| inspectors' :=
                     inspectors ++ [{| Name := name; Config := "";
                                       Inspector_ := None |}];
                   err := None; configured := [] |}).
Proof.
  split.
  - intros Hreach name inspector Hget ->. unfold Get in Hget.
    destruct (reg !! name) as [registered|] eqn:Hreg; [|discriminate].
    injection Hget as ->. now apply (reachable_not_nil reg Hreach) in Hreg.
  - intros inspectors name config Hname Hconfig Hnil. split.
    + rewrite Set_by_cut.
      pose proof (cut_first "=" name config Hname) as Hcut.
      change (String "=" config) with ("=" +:+ config) in Hcut.
      rewrite Hcut. unfold Inspector in *. rewrite Hnil.
      destruct (String.eqb_spec config "") as [-> | _]; [contradiction |].
      exact I.
    + rewrite Set_by_cut, (cut_absent "=" name Hname).
      unfold Inspector in *. now rewrite Hnil.
Qed.

Lemma String_two (first second : Inspectors) :
  first <> [] -> second <> [] ->
  Inspectors_String (first ++ second) =
    Inspectors_String first +:+ "," +:+ Inspectors_String second.
Proof.
  intros Hfirst Hsecond. rewrite !String_render. unfold render.
  rewrite map_app. apply Join_app; now destruct first, second.
Qed.

(** X5: [String] of two policies put end to end is the two renderings
    with a comma in between, and the empty policy renders as the empty
    string. *)
Theorem String_app (first second : Inspectors) :
  Inspectors_String ([] : Inspectors) = "" /\
  (first <> [] -> second <> [] ->
   Inspectors_String (first ++ second) =
     Inspectors_String first +:+ "," +:+ Inspectors_String second).
Proof. split; [reflexivity | apply String_two]. Qed.

(** X6: [String] after [Set] shows the value again.  When a call of
    [Set] returns no error, the rendering of the slice is the rendering
    before, a comma when there was an entry, and the value as given,
    but for one case: a value that ends with the [=] that follows the
    name is shown without that [=]. *)
Theorem Set_then_String (inspectors : Inspectors) (value : string)
    (reg : registry) r :
  Inspectors_Set inspectors value reg = Returned r ->
  err r = None ->
  exists token,
    (token = value \/
     (anyByte (Ascii.eqb "=") token = false /\ token +:+ "=" = value)) /\
    Inspectors_String (inspectors' r) =
      match inspectors with
      | [] => token
      | _ :: _ => Inspectors_String inspectors +:+ "," +:+ token
      end.
Proof.
  intros Hset Herr.
  assert (Hone : exists e, inspectors' r = inspectors ++ [e] /\
            (renderEntry e = value \/
             (anyByte (Ascii.eqb "=") (renderEntry e) = false /\
              renderEntry e +:+ "=" = value))).
  { rewrite Set_by_cut in Hset.
    destruct (cut "=" value) as [[name config]|] eqn:Hcut.
    - apply cut_Some in Hcut as [-> Hname].
      destruct (reg !! name) as [inspector|];
        [|injection Hset as <-; discriminate].
      unfold renderEntry.
      destruct (String.eqb_spec config "") as [-> | Hconfig].
      + injection Hset as <-. eexists. split; [reflexivity |]. cbn. right.
        split; [exact Hname | reflexivity].
      + destruct inspector as [receiver|]; [|discriminate].
        destruct (Configure receiver config) as [configured_ [e|]];
          injection Hset as <-; [discriminate |].
        eexists. split; [reflexivity |]. cbn [Name Config].
        destruct (String.eqb_spec config "") as [-> | _]; [contradiction |].
        now left.
    - destruct (reg !! value) as [inspector|];
        [|injection Hset as <-; discriminate].
      cbn in Hset. injection Hset as <-. eexists. split; [reflexivity |].
      now left. }
  destruct Hone as [e [Heq Htoken]]. exists (renderEntry e).
  split; [exact Htoken |]. rewrite Heq.
  destruct inspectors as [|e0 rest]; [apply (String_render [e]) |].
  rewrite (String_two (e0 :: rest) [e]) by discriminate.
  now rewrite (String_render [e]).
Qed.

(** X7: what a policy built by [Set] holds.  Every member names a
    registered inspector by a name without [=]; a member without
    configuration is the registered inspector itself, and one with a
    configuration is what [Configure] of the registered inspector
    returned for it.  So an inspector registered under a name with an
    [=] in it is never a member. *)
Theorem built_members_registered (reg : registry) (inspectors : Inspectors) :
  built reg inspectors ->
  forall e, e ∈ inspectors ->
    anyByte (Ascii.eqb "=") (Name e) = false /\
    is_Some (reg !! Name e) /\
    (Config e = "" -> reg !! Name e = Some (Inspector_ e)) /\
    (Config e <> "" ->
     exists receiver,
       reg !! Name e = Some (Some receiver) /\
       Configure receiver (Config e) = (Inspector_ e, None)) /\
    (forall name, anyByte (Ascii.eqb "=") name = true -> Name e <> name).
Proof.
  intros Hbuilt e Hin.
  destruct (built_resolves reg inspectors Hbuilt e Hin)
    as [Hname [registered [Hreg Hcases]]].
  split; [exact Hname |]. split; [eauto |]. split; [|split].
  - intros Hconfig.
    destruct Hcases as [[_ ->] | [Hne _]]; [exact Hreg | contradiction].
  - intros Hconfig.
    destruct Hcases as [[Hempty _] | [_ [receiver [-> Hconf]]]];
      [contradiction | eauto].
  - intros name Hhas Heq. rewrite Heq in Hname. congruence.
Qed.

End WithInspector.
End inspectorsMore.

(** * More on the approver *)
Module alwaysMore.
Import Go GoFacts certificates always alwaysFacts logs.

(** In a log of that shape there are as many fetches as updates, or one
    less. *)
Lemma protocol_counts (l : list call) :
  protocol l ->
  length (List.filter isGet l) <= length (List.filter isUpdate l) /\
  length (List.filter isUpdate l) <= S (length (List.filter isGet l)).
Proof.
  induction 1 as [|r|r rest _ [IH1 IH2]]; cbn; [lia | lia |].
  split; lia.
Qed.

Section WithClient.
Context {C : Type} `{CertificateSigningRequestInterface C}.

Local Abbreviation heap := (gmap loc CertificateSigningRequest).

(** Whenever the loop ends on a request that passed the checks, the
    object it was entered with carries the condition. *)
Lemma Approve_for_writes fuel (client : C) (h : heap) l r log run :
  h !! l = Some r ->
  submittedByBootstrap r ->
  Approve_for fuel client h (Some l) log = Some run ->
  objects run !! l = Some (appendCondition r).
Proof.
  intros Hl Hsub Hrun. destruct fuel as [|fuel]; [discriminate |].
  rewrite (Approve_for_submits _ _ _ _ r log Hl Hsub) in Hrun.
  cbv zeta in Hrun.
  assert (Hwritten : <[l := appendCondition r]> h !! l
                     = Some (appendCondition r)) by apply lookup_insert_eq.
  destruct (UpdateApproval client (appendCondition r)) as [client1 [e|]];
    [|now injection Hrun as <-].
  destruct (Contains (Error e) "the object has been modified");
    [|now injection Hrun as <-].
  destruct (Get client1 (v1.Name (ObjectMeta r))) as [client2 [fetched gerr]].
  destruct (new_keeps _ fetched _ _ Hwritten) as [Hkept Hother].
  destruct gerr as [e'|]; [now injection Hrun as <- |].
  destruct (Approve_for_objects _ _ _ _ _ _ Hrun _ _ Hkept)
    as [Hend | (Hreq & _)]; [exact Hend | contradiction].
Qed.

(** X8: the approval.  For a request without conditions, submitted by
    [kubelet-bootstrap] in the group [system:kubelet-bootstrap], when the
    update goes through, [Approve] returns nil after that one call, which
    submits the request with one condition appended: [Approved], reason
    [AutoApproved]; the object of the caller carries it, name and
    submitter unchanged. *)
Theorem Approve_approves fuel (client client' : C) (h : heap) l r :
  h !! l = Some r ->
  Conditions (Status r) = [] ->
  Username (Spec r) = "kubelet-bootstrap" ->
  "system:kubelet-bootstrap" ∈ Groups (Spec r) ->
  UpdateApproval client (appendCondition r) = (client', None) ->
  Approve (S fuel) client h (Some l) =
    Some {| result := Returned None;
            objects := <[l := appendCondition r]> h;
            store := client';
            calls := [UpdateApprovalCall (appendCondition r)] |} /\
  appendCondition r =
    {| ObjectMeta := ObjectMeta r;
       Spec := Spec r;
       Status :=
         {| Conditions :=
              [{| Type_ := "Approved";
                  Reason := "AutoApproved";
                  Message :=
                    "Auto approving of all kubelet CSRs is enabled on bootkube" |}] |} |}.
Proof.
  intros Hl Hconds Huser Hgroup Hupdate.
  assert (Hsub : submittedByBootstrap r).
  { split; [exact Hconds |]. split; [exact Huser |].
    now apply isKubeletBootstrapGroup_elem. }
  split.
  - unfold Approve. rewrite (Approve_for_submits _ _ _ _ r [] Hl Hsub).
    cbv zeta. now rewrite Hupdate.
  - unfold appendCondition. now rewrite Hconds.
Qed.

(** X9: a second call does nothing.  Once a call of [Approve] on an
    object has ended, whatever it returned, another call on the same
    object returns nil without writing and without calling the client:
    after an update that failed, the object still carries the condition
    and the approval is not submitted again. *)
Theorem Approve_twice fuel fuel' (client : C) (h : heap) l r run :
  h !! l = Some r ->
  Approve fuel client h (Some l) = Some run ->
  Approve (S fuel') (store run) (objects run) (Some l) =
    Some {| result := Returned None;
            objects := objects run; store := store run; calls := [] |}.
Proof.
  intros Hl Hrun. unfold Approve in *.
  destruct (submittedByBootstrap_dec r) as [Hsub | Hno].
  - apply (Approve_for_stops _ _ _ _ (appendCondition r)).
    + exact (Approve_for_writes _ _ _ _ _ _ _ Hl Hsub Hrun).
    + intros [Hconds _]. destruct Hsub as [Hempty _].
      cbn in Hconds. rewrite Hempty in Hconds. discriminate.
  - apply (Approve_for_stops _ _ _ _ r); [|exact Hno].
    destruct (Approve_for_objects _ _ _ _ _ _ Hrun l r Hl)
      as [Hsame | (_ & Hsub & _)]; [exact Hsame | contradiction].
Qed.

(** X10: [Approve] writes through the pointer it is given and nowhere
    else: every other object of the heap is as before when it ends, and
    no object is removed. *)
Theorem Approve_frame fuel (client : C) (h : heap) request run :
  Approve fuel client h request = Some run ->
  (forall l r, h !! l = Some r -> request <> Some l ->
     objects run !! l = Some r) /\
  (forall l, is_Some (h !! l) -> is_Some (objects run !! l)).
Proof.
  intros Hrun. split.
  - intros l r Hl Hother.
    destruct (Approve_for_objects _ _ _ _ _ _ Hrun l r Hl)
      as [Hsame | (Hreq & _)]; [exact Hsame | contradiction].
  - intros l [r Hl].
    destruct (Approve_for_objects _ _ _ _ _ _ Hrun l r Hl)
      as [Hsame | (_ & _ & Hupd)]; eauto.
Qed.

Lemma Approve_for_no_panic fuel :
  (forall c name c' o, Get c name = (c', (o, None)) -> is_Some o) ->
  forall (client : C) (h : heap) l r log run,
    h !! l = Some r ->
    Approve_for fuel client h (Some l) log = Some run ->
    ~ panics (result run).
Proof.
  intros Hget. induction fuel as [|fuel IH];
    intros client h l r log run Hl Hrun; [discriminate |].
  destruct (submittedByBootstrap_dec r) as [Hsub | Hno].
  2:{ rewrite (Approve_for_stops _ _ _ _ r log Hl Hno) in Hrun.
      injection Hrun as <-. exact id. }
  rewrite (Approve_for_submits _ _ _ _ r log Hl Hsub) in Hrun.
  cbv zeta in Hrun.
  destruct (UpdateApproval client (appendCondition r)) as [client1 [e|]];
    [|injection Hrun as <-; exact id].
  destruct (Contains (Error e) "the object has been modified");
    [|injection Hrun as <-; exact id].
  destruct (Get client1 (v1.Name (ObjectMeta r)))
    as [client2 [fetched [e'|]]] eqn:Hfetch;
    [injection Hrun as <-; exact id |].
  destruct (Hget _ _ _ _ Hfetch) as [r2 ->]. cbn [new fst snd] in Hrun.
  exact (IH _ _ _ r2 _ _ (lookup_insert_eq _ _ _) Hrun).
Qed.

(** X11: [Approve] panics on a nil pointer, before any call; given a
    pointer to an object, and a client whose [Get] hands back an object
    whenever it reports no error, it never panics. *)
Theorem Approve_never_panics (client : C) (h : heap) :
  (forall fuel,
     Approve (S fuel) client h None =
       Some {| result := Panicked nilDereference;
               objects := h; store := client; calls := [] |}) /\
  ((forall c name c' o, Get c name = (c', (o, None)) -> is_Some o) ->
   forall fuel l r run,
     h !! l = Some r ->
     Approve fuel client h (Some l) = Some run ->
     ~ panics (result run)).
Proof.
  split; [reflexivity |]. intros Hget fuel l r run Hl Hrun.
  exact (Approve_for_no_panic fuel Hget _ _ _ _ _ _ Hl Hrun).
Qed.

(** X12: the loop has no bound.  With a store whose every update fails
    with the conflict text and whose every fetch hands back a request that
    passes the checks, [Approve] on such a request never returns: no
    number of iterations ends it. *)
Theorem Approve_never_returns_under_contention (client : C) (h : heap) l r :
  (forall c r', exists c' e,
     UpdateApproval c r' = (c', Some e) /\
     Contains (Error e) "the object has been modified" = true) ->
  (forall c name, exists c' r',
     Get c name = (c', (Some r', None)) /\ submittedByBootstrap r') ->
  h !! l = Some r ->
  submittedByBootstrap r ->
  forall fuel, Approve fuel client h (Some l) = None.
Proof.
  intros Hupdate Hget Hl Hsub fuel. unfold Approve. generalize (@nil call).
  revert client h l r Hl Hsub.
  induction fuel as [|fuel IH]; intros client h l r Hl Hsub log;
    [reflexivity |].
  rewrite (Approve_for_submits _ _ _ _ r log Hl Hsub). cbv zeta.
  destruct (Hupdate client (appendCondition r)) as (c1 & e & -> & ->).
  destruct (Hget c1 (v1.Name (ObjectMeta r))) as (c2 & r2 & -> & Hsub2).
  cbn [new fst snd]. apply (IH _ _ _ r2); [apply lookup_insert_eq | exact Hsub2].
Qed.

Lemma Approve_for_protocol fuel :
  forall (client : C) (h : heap) request log run,
    Approve_for fuel client h request log = Some run ->
    exists suffix,
      calls run = log ++ suffix /\
      protocol suffix /\
      length suffix <= 2 * fuel /\
      (forall e, result run = Returned (Some e) -> suffix <> []).
Proof.
  induction fuel as [|fuel IH]; intros client h request log run Hrun;
    [discriminate |].
  assert (Hnone : forall res st,
            run = {| result := res; objects := st; store := client;
                     calls := log |} ->
            (forall e, res <> Returned (Some e)) ->
            exists suffix,
              calls run = log ++ suffix /\ protocol suffix /\
              length suffix <= 2 * S fuel /\
              (forall e, result run = Returned (Some e) -> suffix <> [])).
  { intros res st -> Hres. exists []. cbn. rewrite app_nil_r.
    split; [reflexivity |]. split; [constructor |]. split; [lia |].
    intros e He. now apply Hres in He. }
  destruct request as [l|];
    [|cbn in Hrun; injection Hrun as <-; eapply Hnone; [reflexivity | discriminate]].
  destruct (h !! l) as [r|] eqn:Hl;
    [|cbn in Hrun; rewrite Hl in Hrun; injection Hrun as <-;
      eapply Hnone; [reflexivity | discriminate]].
  destruct (submittedByBootstrap_dec r) as [Hsub | Hno].
  2:{ rewrite (Approve_for_stops _ _ _ _ r log Hl Hno) in Hrun.
      injection Hrun as <-. eapply Hnone; [reflexivity | discriminate]. }
  rewrite (Approve_for_submits _ _ _ _ r log Hl Hsub) in Hrun.
  cbv zeta in Hrun.
  assert (Hone : forall res st c,
            run = {| result := res; objects := st; store := c;
                     calls := log ++ [UpdateApprovalCall (appendCondition r)] |} ->
            exists suffix,
              calls run = log ++ suffix /\ protocol suffix /\
              length suffix <= 2 * S fuel /\
              (forall e, result run = Returned (Some e) -> suffix <> [])).
  { intros res st c ->. exists [UpdateApprovalCall (appendCondition r)].
    cbn. split; [reflexivity |]. split; [constructor |]. split; [lia |].
    discriminate. }
  destruct (UpdateApproval client (appendCondition r)) as [client1 [e|]];
    [|injection Hrun as <-; eapply Hone; reflexivity].
  destruct (Contains (Error e) "the object has been modified");
    [|injection Hrun as <-; eapply Hone; reflexivity].
  destruct (Get client1 (v1.Name (ObjectMeta r)))
    as [client2 [fetched [e'|]]].
  - injection Hrun as <-.
    exists [UpdateApprovalCall (appendCondition r);
            GetCall (v1.Name (ObjectMeta (appendCondition r)))].
    cbn. rewrite <- app_assoc. split; [reflexivity |].
    split; [exact (protocol_retry (appendCondition r) [] protocol_nil) |].
    split; [lia | discriminate].
  - destruct (IH _ _ _ _ _ Hrun) as (suffix & Hcalls & Hproto & Hlen & _).
    exists (UpdateApprovalCall (appendCondition r)
              :: GetCall (v1.Name (ObjectMeta (appendCondition r))) :: suffix).
    split; [rewrite Hcalls, <- !app_assoc; reflexivity |].
    split; [exact (protocol_retry (appendCondition r) suffix Hproto) |].
    split; [cbn; lia | discriminate].
Qed.

(** X13: the calls [Approve] makes.  They are updates with, between two
    of them, one fetch, by the name of the object just submitted; so the
    log starts with an update when it is not empty, there are as many
    fetches as updates or one less, at most two calls per iteration, and
    an error is only returned after a call. *)
Theorem Approve_protocol fuel (client : C) (h : heap) request run :
  Approve fuel client h request = Some run ->
  protocol (calls run) /\
  length (List.filter isGet (calls run)) <= length (List.filter isUpdate (calls run)) /\
  length (List.filter isUpdate (calls run)) <= S (length (List.filter isGet (calls run))) /\
  length (calls run) <= 2 * fuel /\
  (forall e, result run = Returned (Some e) -> calls run <> []).
Proof.
  intros Hrun.
  destruct (Approve_for_protocol _ _ _ _ _ _ Hrun)
    as (suffix & Hcalls & Hproto & Hlen & Herr).
  cbn in Hcalls. rewrite Hcalls.
  destruct (protocol_counts suffix Hproto) as [Hle1 Hle2]. auto 6.
Qed.

(** X14: without conflicts there is one round.  When no error of the
    update carries the conflict text, [Approve] on any object ends in its
    first iteration: it returns, with at most one call, an update, and
    never a fetch. *)
Theorem Approve_one_round_without_conflict (client : C) (h : heap) l r :
  (forall c r' c' e,
     UpdateApproval c r' = (c', Some e) ->
     Contains (Error e) "the object has been modified" = false) ->
  h !! l = Some r ->
  exists run,
    (forall fuel, Approve (S fuel) client h (Some l) = Some run) /\
    ~ panics (result run) /\
    length (calls run) <= 1 /\
    List.filter isGet (calls run) = [].
Proof.
  intros Hnever Hl. unfold Approve.
  destruct (submittedByBootstrap_dec r) as [Hsub | Hno].
  2:{ eexists. split; [intros fuel; now apply (Approve_for_stops _ _ _ _ r) |].
      cbn. split; [exact id |]. split; [lia | reflexivity]. }
  destruct (UpdateApproval client (appendCondition r))
    as [client1 [e|]] eqn:Hupdate.
  - eexists. split.
    + intros fuel. rewrite (Approve_for_submits _ _ _ _ r [] Hl Hsub).
      cbv zeta. rewrite Hupdate, (Hnever _ _ _ _ Hupdate). reflexivity.
    + cbn. split; [exact id |]. split; [lia | reflexivity].
  - eexists. split.
    + intros fuel. rewrite (Approve_for_submits _ _ _ _ r [] Hl Hsub).
      cbv zeta. rewrite Hupdate. reflexivity.
    + cbn. split; [exact id |]. split; [lia | reflexivity].
Qed.

End WithClient.
End alwaysMore.

(** * The approver against a store that conflicts a number of times *)
Module alwaysRetries.
Import Go GoFacts certificates always alwaysFacts samples doubles.

#[local] Existing Instance scripted.

Lemma bootstrap_submitted name : submittedByBootstrap (bootstrap name).
Proof. repeat split; reflexivity. Qed.

(** One round against the store that conflicts once more. *)
Lemma Approve_for_conflict fuel n name
    (h : gmap loc CertificateSigningRequest) l log :
  h !! l = Some (bootstrap name) ->
  let r := appendCondition (bootstrap name) in
  let h1 := <[l := r]> h in
  Approve_for (S fuel) (conflicts (S n) name) h (Some l) log =
    Approve_for fuel (conflicts n name)
      (<[fresh (dom h1) := bootstrap name]> h1) (Some (fresh (dom h1)))
      (log ++ rounds 1 r).
Proof.
  intros Hl r h1.
  rewrite (Approve_for_submits _ _ _ _ _ log Hl (bootstrap_submitted name)).
  cbv zeta. unfold rounds. now rewrite <- app_assoc.
Qed.

Lemma Approve_for_conflicts n name :
  forall (h : gmap loc CertificateSigningRequest) l log,
    h !! l = Some (bootstrap name) ->
    exists run,
      Approve_for (S n) (conflicts n name) h (Some l) log = Some run /\
      result run = Returned None /\
      store run = conflicts 0 name /\
      objects run !! l = Some (appendCondition (bootstrap name)) /\
      calls run =
        log ++ rounds n (appendCondition (bootstrap name))
            ++ [UpdateApprovalCall (appendCondition (bootstrap name))].
Proof.
  induction n as [|n IH]; intros h l log Hl.
  - rewrite (Approve_for_submits _ _ _ _ _ log Hl (bootstrap_submitted name)).
    cbv zeta. eexists. split; [reflexivity |]. cbn [result store objects calls].
    repeat split. apply lookup_insert_eq.
  - rewrite (Approve_for_conflict _ _ _ _ _ _ Hl). cbv zeta.
    set (h1 := <[l := appendCondition (bootstrap name)]> h).
    destruct (IH (<[fresh (dom h1) := bootstrap name]> h1) (fresh (dom h1))
                (log ++ rounds 1 (appendCondition (bootstrap name)))
                (lookup_insert_eq _ _ _))
      as (run & Hrun & Hres & Hstore & _ & Hcalls).
    exists run. split; [exact Hrun |]. split; [exact Hres |].
    split; [exact Hstore |]. split.
    + assert (Hwritten : h1 !! l = Some (appendCondition (bootstrap name)))
        by apply lookup_insert_eq.
      destruct (new_keeps h1 (Some (bootstrap name)) _ _ Hwritten)
        as [Hkept Hother].
      destruct (Approve_for_objects _ _ _ _ _ _ Hrun _ _ Hkept)
        as [Hend | (Hreq & _)]; [exact Hend | contradiction].
    + rewrite Hcalls, <- app_assoc. reflexivity.
Qed.

Lemma Approve_for_conflicts_short n name :
  forall fuel (h : gmap loc CertificateSigningRequest) l log,
    fuel <= n ->
    h !! l = Some (bootstrap name) ->
    Approve_for fuel (conflicts n name) h (Some l) log = None.
Proof.
  induction n as [|n IH]; intros [|fuel] h l log Hle Hl;
    [reflexivity | lia | reflexivity |].
  rewrite (Approve_for_conflict _ _ _ _ _ _ Hl). cbv zeta.
  apply IH; [lia | apply lookup_insert_eq].
Qed.

(** X15: [Approve] retries as long as the store conflicts.  Against a
    store that answers the first [n] updates with the conflict text,
    handing the request back unchanged at each fetch, and accepts the
    next update, [Approve] returns nil after [n] rounds of update and
    fetch and one last update, with the condition on the object of the
    caller; [n + 1] iterations are needed, no fewer end it. *)
Theorem Approve_retries_until_accepted n name
    (h : gmap loc CertificateSigningRequest) l :
  h !! l = Some (bootstrap name) ->
  (exists run,
     Approve (S n) (conflicts n name) h (Some l) = Some run /\
     result run = Returned None /\
     objects run !! l = Some (appendCondition (bootstrap name)) /\
     calls run =
       rounds n (appendCondition (bootstrap name))
         ++ [UpdateApprovalCall (appendCondition (bootstrap name))]) /\
  (forall fuel, fuel <= n ->
     Approve fuel (conflicts n name) h (Some l) = None).
Proof.
  intros Hl. split.
  - destruct (Approve_for_conflicts n name h l [] Hl)
      as (run & Hrun & Hres & _ & Hobj & Hcalls).
    exists run. auto.
  - intros fuel Hle. now apply Approve_for_conflicts_short.
Qed.

End alwaysRetries.

(** * The further theorems on the sample instances *)
Module inspectorsMoreExamples.
Import Go GoFacts inspectors inspectorsFacts inspectorsMore samples.

#[local] Existing Instance bytewise.
#[local] Existing Instance sampleMethods.

(** X1 at the name [keyusage]. *)
Lemma Register_then_Get_witness :
  Register "keyusage" (Some (Sample "keyusage" "")) ∅
    = Returned {["keyusage" := Some (Sample "keyusage" "")]} /\
  Get "keyusage" {["keyusage" := Some (Sample "keyusage" "")]}
    = (Some (Sample "keyusage" ""), true).
Proof.
  assert (Hreg : Register "keyusage" (Some (Sample "keyusage" "")) ∅
                 = Returned {["keyusage" := Some (Sample "keyusage" "")]})
    by reflexivity.
  split; [exact Hreg |].
  exact (proj2 (proj2 (Register_then_Get "keyusage" _ ∅ _ Hreg))
           eq_refl eq_refl).
Defined.

(** X2 at the name [KeyUsage]. *)
Lemma Unregister_undoes_Register_witness :
  Register "KeyUsage" (Some (Sample "keyusage" "")) ∅
    = Returned {["keyusage" := Some (Sample "keyusage" "")]} /\
  Unregister "keyusage" {["keyusage" := Some (Sample "keyusage" "")]}
    = (∅ : gmap string (option sample)).
Proof.
  assert (Hreg : Register "KeyUsage" (Some (Sample "keyusage" "")) ∅
                 = Returned {["keyusage" := Some (Sample "keyusage" "")]})
    by reflexivity.
  split; [exact Hreg |].
  exact (proj1 (Unregister_undoes_Register "KeyUsage" _ ∅ _ Hreg)).
Defined.

(** X3 on the registry of [a], when [B] is registered and when [a] is
    unregistered. *)
Lemma List_follows_registry_witness :
  Register "B" (Some (Sample "b" "")) (registryOf ["a"])
    = Returned (<["b" := Some (Sample "b" "")]> (registryOf ["a"])) /\
  List (<["b" := Some (Sample "b" "")]> (registryOf ["a"]))
    ≡ₚ "b" :: List (registryOf ["a"]) /\
  is_Some (registryOf ["a"] !! "a") /\
  "a" :: List (Unregister "a" (registryOf ["a"])) ≡ₚ List (registryOf ["a"]).
Proof.
  assert (Hreg : Register "B" (Some (Sample "b" "")) (registryOf ["a"])
            = Returned (<["b" := Some (Sample "b" "")]> (registryOf ["a"])))
    by (vm_compute; reflexivity).
  assert (Ha : is_Some (registryOf ["a"] !! "a")) by (vm_compute; eauto).
  destruct (List_follows_registry (registryOf ["a"]))
    as (Hadd & Hremove & _ & _).
  split; [exact Hreg |]. split; [exact (Hadd "B" _ _ Hreg) |].
  split; [exact Ha | exact (Hremove "a" Ha)].
Defined.

(** X4 on the registry made by registering [a], and on a map that holds
    the nil interface under [t]. *)
Lemma registered_never_nil_witness :
  reachable ({["a" := Some (Sample "a" "")]} : gmap string (option sample)) /\
  Get "a" {["a" := Some (Sample "a" "")]} = (Some (Sample "a" ""), true) /\
  Some (Sample "a" "") <> None /\
  ({["t" := None]} : gmap string (option sample)) !! "t" = Some None /\
  panics (Inspectors_Set [] "t=cfg" {["t" := None]}).
Proof.
  assert (Hreach : reachable
            ({["a" := Some (Sample "a" "")]} : gmap string (option sample))).
  { apply (reachable_Register ∅ "a" (Some (Sample "a" ""))).
    - exact reachable_init.
    - reflexivity. }
  assert (Hget : Get "a" {["a" := Some (Sample "a" "")]}
                 = (Some (Sample "a" ""), true)) by reflexivity.
  assert (Hnil : ({["t" := None]} : gmap string (option sample)) !! "t"
                 = Some None) by reflexivity.
  assert (Hconfig : "cfg" <> "") by discriminate.
  split; [exact Hreach |]. split; [exact Hget |]. split.
  - exact (proj1 (registered_never_nil _) Hreach "a" _ Hget).
  - split; [exact Hnil |].
    exact (proj1 (proj2 (registered_never_nil _) [] "t" "cfg"
                    eq_refl Hconfig Hnil)).
Defined.

(** X5 on two policies of one entry. *)
Lemma String_app_witness :
  let X := {| Name := "x"; Config := "1"; Inspector_ := Some (Sample "x" "1") |} in
  let Y := {| Name := "y"; Config := ""; Inspector_ := Some (Sample "y" "") |} in
  [X] <> [] /\ [Y] <> [] /\
  Inspectors_String ([X] ++ [Y]) =
    Inspectors_String [X] +:+ "," +:+ Inspectors_String [Y].
Proof.
  intros X Y.
  assert (HX : [X] <> []) by discriminate.
  assert (HY : [Y] <> []) by discriminate.
  split; [exact HX |]. split; [exact HY |].
  exact (proj2 (String_app [X] [Y]) HX HY).
Defined.

(** X6 at the value [x=], shown as [x]. *)
Lemma Set_then_String_witness :
  let r := {| inspectors' := [{| Name := "x"; Config := "";
                                 Inspector_ := Some (Sample "x" "") |}];
              err := None; configured := [] |} in
  Inspectors_Set [] "x=" (registryOf ["x"]) = Returned r /\
  err r = None /\
  exists token,
    (token = "x=" \/
     (anyByte (Ascii.eqb "=") token = false /\ token +:+ "=" = "x=")) /\
    Inspectors_String (inspectors' r) = token.
Proof.
  intros r.
  assert (Hset : Inspectors_Set [] "x=" (registryOf ["x"]) = Returned r)
    by (vm_compute; reflexivity).
  split; [exact Hset |]. split; [reflexivity |].
  exact (Set_then_String [] "x=" (registryOf ["x"]) r Hset eq_refl).
Defined.

(** X7 on the policy built by the calls for [x=1] and [y]. *)
Lemma built_members_registered_witness :
  let reg := registryOf ["x"; "y"] in
  let X := {| Name := "x"; Config := "1"; Inspector_ := Some (Sample "x" "1") |} in
  let Y := {| Name := "y"; Config := ""; Inspector_ := Some (Sample "y" "") |} in
  built reg [X; Y] /\
  Y ∈ [X; Y] /\
  reg !! "y" = Some (Some (Sample "y" "")).
Proof.
  intros reg X Y.
  assert (Hx : Inspectors_Set [] "x=1" reg =
                 Returned {| inspectors' := [X]; err := None;
                             configured := [(Sample "x" "", "1")] |})
    by (vm_compute; reflexivity).
  assert (Hy : Inspectors_Set [X] "y" reg =
                 Returned {| inspectors' := [X; Y]; err := None;
                             configured := [] |})
    by (vm_compute; reflexivity).
  assert (Hbuilt : built reg [X; Y]).
  { exact (built_Set reg [X] "y" _
             (built_Set reg [] "x=1" _ (built_nil reg) Hx eq_refl) Hy eq_refl). }
  assert (Hin : Y ∈ [X; Y]) by (right; left).
  split; [exact Hbuilt |]. split; [exact Hin |].
  exact (proj1 (proj2 (proj2
           (built_members_registered reg [X; Y] Hbuilt Y Hin))) eq_refl).
Defined.

End inspectorsMoreExamples.

Module alwaysMoreExamples.
Import Go certificates always alwaysFacts alwaysMore alwaysRetries logs
  samples doubles.

(** X8 on a bootstrap request and a store that accepts the update. *)
Lemma Approve_approves_witness :
  let r := bootstrap "csr-1" in
  let client := {| updates := []; fetches := [] |} in
  only r !! 1%positive = Some r /\
  "system:kubelet-bootstrap" ∈ Groups (Spec r) /\
  @Approve script scripted 1 client (only r) (Some 1%positive) =
    Some {| result := Returned None;
            objects := <[1%positive := appendCondition r]> (only r);
            store := client;
            calls := [UpdateApprovalCall (appendCondition r)] |}.
Proof.
  intros r client.
  assert (Hl : only r !! 1%positive = Some r) by (vm_compute; reflexivity).
  assert (Hgroup : "system:kubelet-bootstrap" ∈ Groups (Spec r))
    by (right; left).
  split; [exact Hl |]. split; [exact Hgroup |].
  exact (proj1 (@Approve_approves script scripted 0 client client (only r)
                  1%positive r Hl eq_refl eq_refl Hgroup eq_refl)).
Defined.

(** X9 after a call that ended with the error of the update. *)
Lemma Approve_twice_witness :
  let r := bootstrap "csr-1" in
  let client := {| updates := [Some unavailable]; fetches := [] |} in
  let run := {| result := Returned (Some unavailable);
                objects := <[1%positive := appendCondition r]> (only r);
                store := {| updates := []; fetches := [] |};
                calls := [UpdateApprovalCall (appendCondition r)] |} in
  only r !! 1%positive = Some r /\
  @Approve script scripted 1 client (only r) (Some 1%positive) = Some run /\
  @Approve script scripted 1 (store run) (objects run) (Some 1%positive) =
    Some {| result := Returned None;
            objects := objects run; store := store run; calls := [] |}.
Proof.
  intros r client run.
  assert (Hl : only r !! 1%positive = Some r) by (vm_compute; reflexivity).
  assert (Hrun : @Approve script scripted 1 client (only r) (Some 1%positive)
                 = Some run) by reflexivity.
  split; [exact Hl |]. split; [exact Hrun |].
  exact (@Approve_twice script scripted 1 0 client (only r) 1%positive r run
           Hl Hrun).
Defined.

(** X10 on a heap of two requests, the first of which is approved. *)
Lemma Approve_frame_witness :
  let h : gmap loc CertificateSigningRequest :=
    <[2%positive := bootstrap "csr-2"]> (only (bootstrap "csr-1")) in
  let client := {| updates := []; fetches := [] |} in
  exists run,
    @Approve script scripted 1 client h (Some 1%positive) = Some run /\
    h !! 2%positive = Some (bootstrap "csr-2") /\
    objects run !! 2%positive = Some (bootstrap "csr-2").
Proof.
  intros h client.
  assert (Hex : exists run,
            @Approve script scripted 1 client h (Some 1%positive) = Some run)
    by (vm_compute; eauto).
  destruct Hex as [run Hrun].
  assert (Hl : h !! 2%positive = Some (bootstrap "csr-2"))
    by (vm_compute; reflexivity).
  exists run. split; [exact Hrun |]. split; [exact Hl |].
  apply (proj1 (@Approve_frame script scripted 1 client h _ run Hrun)
           2%positive _ Hl).
  discriminate.
Defined.

(** X11 on the store where someone else was first: the update
    conflicts, the request is fetched, and the fetched object ends the
    call. *)
Lemma Approve_never_panics_witness :
  let r := bootstrap "csr-1" in
  (forall (c : unit) name c' o,
     @Get unit overtaken c name = (c', (o, None)) -> is_Some o) /\
  only r !! 1%positive = Some r /\
  exists run,
    @Approve unit overtaken 2 tt (only r) (Some 1%positive) = Some run /\
    calls run = [UpdateApprovalCall (appendCondition r); GetCall "csr-1"] /\
    result run = Returned None /\
    ~ panics (result run).
Proof.
  intros r.
  assert (Hget : forall (c : unit) name c' o,
            @Get unit overtaken c name = (c', (o, None)) -> is_Some o).
  { intros c name c' o Heq. injection Heq as _ <-. eauto. }
  assert (Hl : only r !! 1%positive = Some r) by (vm_compute; reflexivity).
  assert (Hex : exists run,
            @Approve unit overtaken 2 tt (only r) (Some 1%positive) = Some run /\
            calls run = [UpdateApprovalCall (appendCondition r);
                         GetCall "csr-1"] /\
            result run = Returned None)
    by (vm_compute; eauto).
  destruct Hex as (run & Hrun & Hcalls & Hres).
  split; [exact Hget |]. split; [exact Hl |].
  exists run. split; [exact Hrun |]. split; [exact Hcalls |].
  split; [exact Hres |].
  exact (proj2 (@Approve_never_panics unit overtaken tt (only r)) Hget 2
           1%positive r run Hl Hrun).
Defined.

(** X12 on the store under endless contention. *)
Lemma Approve_never_returns_under_contention_witness :
  let r := bootstrap "csr-1" in
  only r !! 1%positive = Some r /\
  submittedByBootstrap r /\
  forall fuel, @Approve unit contended fuel tt (only r) (Some 1%positive) = None.
Proof.
  intros r.
  assert (Hl : only r !! 1%positive = Some r) by (vm_compute; reflexivity).
  assert (Hsub : submittedByBootstrap r) by (repeat split; reflexivity).
  split; [exact Hl |]. split; [exact Hsub |].
  apply (@Approve_never_returns_under_contention unit contended tt (only r)
           1%positive r); [| |exact Hl|exact Hsub].
  - intros c r'. exists c, conflict. split; reflexivity.
  - intros c name. exists c, (bootstrap name).
    split; [reflexivity | repeat split; reflexivity].
Defined.

(** X13 on a run with one conflict. *)
Lemma Approve_protocol_witness :
  let r := bootstrap "csr-1" in
  exists run,
    @Approve script scripted 2 (conflicts 1 "csr-1") (only r) (Some 1%positive)
      = Some run /\
    protocol (calls run) /\
    length (calls run) <= 4.
Proof.
  intros r.
  assert (Hex : exists run,
            @Approve script scripted 2 (conflicts 1 "csr-1") (only r)
              (Some 1%positive) = Some run)
    by (vm_compute; eauto).
  destruct Hex as [run Hrun].
  destruct (@Approve_protocol script scripted 2 _ _ _ run Hrun)
    as (Hproto & _ & _ & Hlen & _).
  exists run. auto.
Defined.

(** X14 on the store that is down. *)
Lemma Approve_one_round_without_conflict_witness :
  let r := bootstrap "csr-1" in
  (forall (c : unit) r' c' e,
     @UpdateApproval unit down c r' = (c', Some e) ->
     Contains (Error e) "the object has been modified" = false) /\
  only r !! 1%positive = Some r /\
  exists run,
    (forall fuel,
       @Approve unit down (S fuel) tt (only r) (Some 1%positive) = Some run) /\
    length (calls run) <= 1.
Proof.
  intros r.
  assert (Hnever : forall (c : unit) r' c' e,
            @UpdateApproval unit down c r' = (c', Some e) ->
            Contains (Error e) "the object has been modified" = false).
  { intros c r' c' e Heq. injection Heq as _ <-. reflexivity. }
  assert (Hl : only r !! 1%positive = Some r) by (vm_compute; reflexivity).
  split; [exact Hnever |]. split; [exact Hl |].
  destruct (@Approve_one_round_without_conflict unit down tt (only r)
              1%positive r Hnever Hl) as (run & Hrun & _ & Hlen & _).
  exists run. auto.
Defined.

(** X15 with two conflicts. *)
Lemma Approve_retries_until_accepted_witness :
  let r := bootstrap "csr-1" in
  only r !! 1%positive = Some r /\
  (exists run,
     @Approve script scripted 3 (conflicts 2 "csr-1") (only r) (Some 1%positive)
       = Some run /\
     result run = Returned None /\
     calls run =
       [UpdateApprovalCall (appendCondition r); GetCall "csr-1";
        UpdateApprovalCall (appendCondition r); GetCall "csr-1";
        UpdateApprovalCall (appendCondition r)]) /\
  @Approve script scripted 2 (conflicts 2 "csr-1") (only r) (Some 1%positive)
    = None.
Proof.
  intros r.
  assert (Hl : only r !! 1%positive = Some r) by (vm_compute; reflexivity).
  destruct (Approve_retries_until_accepted 2 "csr-1" (only r) 1%positive Hl)
    as [(run & Hrun & Hres & _ & Hcalls) Hshort].
  split; [exact Hl |]. split.
  - exists run. auto.
  - apply Hshort. repeat constructor.
Defined.

End alwaysMoreExamples.
